(** * Workflow Dispatch Action: a shallow embedding of [src/main.ts]

    The action is one asynchronous routine, [run]: it resolves its inputs,
    lists the workflows of a repository, finds the requested one, dispatches
    it, waits for the resulting run to show up and then polls that run until
    it is completed.

    The routine talks to a platform API, a clock and the task runner.  These
    are collected in a [World]: a deterministic oracle giving the answer of
    every call.  Everything the routine does to the outside is appended to a
    trace of [Event]s, in program order.  Exceptions are a second kind of
    completion of the monad [M]; the state reached before a [throw] is kept,
    as in JavaScript.  The completion poller of the source has no iteration
    cap, so loops take a fuel and complete as [Pending] when it runs out. *)

From Stdlib Require Import String Ascii ZArith List Lia Bool DecimalString.
From ExtLib Require Import Structures.Monad Structures.MonadExc.
Import ListNotations.
Import MonadNotation.

Open Scope string_scope.
Open Scope Z_scope.
Open Scope monad_scope.

(** ** JavaScript string primitives used by the action

    Strings are sequences of bytes (UTF-8); for well-formed text the prefix,
    suffix and occurrence relations agree with those on UTF-16 code units. *)
Module Js.

(** JavaScript truthiness of a string: every string but [''] is truthy. *)
Definition truthy (s : string) : bool :=
  match s with
  | EmptyString => false
  | String _ _ => true
  end.

(** [s.slice(n)] for [0 <= n]. *)
Fixpoint drop (n : nat) (s : string) : string :=
  match n, s with
  | O, _ => s
  | S _, EmptyString => EmptyString
  | S n', String _ s' => drop n' s'
  end.

(** [s.startsWith(search)]. *)
Definition startsWith (s search : string) : bool := String.prefix search s.

(** [s.endsWith(search)]: with [start = s.length - search.length], the
    answer is false when [start < 0], and otherwise whether the code units
    of [s] from [start] on are those of [search]. *)
Definition endsWith (s search : string) : bool :=
  let len := String.length s in
  let searchLength := String.length search in
  (searchLength <=? len)%nat && String.eqb (drop (len - searchLength) s) search.

(** [s.replace(pattern, replacement)] with a string pattern: only the first
    occurrence of [pattern], wherever it is, is replaced.  (The replacement
    of the source is [''], so no [$] pattern is involved.) *)
Fixpoint replace (s pattern replacement : string) : string :=
  if String.prefix pattern s
  then replacement ++ drop (String.length pattern) s
  else match s with
       | EmptyString => EmptyString
       | String c s' => String c (replace s' pattern replacement)
       end.

(** [s.split(sep)] for a one-character separator. *)
Fixpoint split (s : string) (sep : ascii) : list string :=
  match s with
  | EmptyString => [EmptyString]
  | String c s' =>
      if Ascii.eqb c sep then EmptyString :: split s' sep
      else match split s' sep with
           | piece :: pieces => String c piece :: pieces
           | [] => [String c EmptyString]
           end
  end.

(** [n.toString()] for an integral number below [10^21] in absolute value:
    its decimal digits, after [-] when it is negative.  The identifiers and
    status codes of the platform are such numbers. *)
Definition Number_toString (n : Z) : string :=
  NilZero.string_of_int (Z.to_int n).

(** A template literal [`${v}`] for a value that is a string or
    [undefined]. *)
Definition interpolate (v : option string) : string :=
  match v with
  | Some s => s
  | None => "undefined"
  end.

(** A template literal [`${v}`] for a value that is a string or [null]. *)
Definition interpolate_nullable (v : option string) : string :=
  match v with
  | Some s => s
  | None => "null"
  end.

(** A [Date] holds a time value in milliseconds, or NaN ([None]) when it is
    invalid.  [new Date(t)] clips [t] to the range of time values. *)
Definition Date : Type := option Z.

Definition new_Date (t : Z) : Date :=
  if Z.abs t <=? 8640000000000000 then Some t else None.

(** [a > b] on two dates: both are converted to numbers, and a comparison
    with NaN is false. *)
Definition Date_gt (a b : Date) : bool :=
  match a, b with
  | Some x, Some y => y <? x
  | _, _ => false
  end.

End Js.

(** ** Data model *)

(** [type Workflow = { id: number; name: string; path: string }] *)
Module Workflow.
Record t : Type := mk { id : Z; name : string; path : string }.
End Workflow.

(** A workflow run as returned by the platform; the action reads these four
    fields.  [conclusion] is [null] ([None]) until the run is completed. *)
Module Run.
Record t : Type :=
  mk { id : Z; status : string; conclusion : option string; created_at : string }.
End Run.

(** The result of [JSON.parse]: a JSON value.  A number [JNumber m e] stands
    for [m * 10^e]. *)
#[local] Unset Elimination Schemes.
Inductive Json : Type :=
| JNull
| JBool (b : bool)
| JNumber (mantissa exponent : Z)
| JString (s : string)
| JArray (items : list Json)
| JObject (members : list (string * Json)).
#[local] Set Elimination Schemes.

(** The values the action passes to [core.setOutput]. *)
Inductive Value : Type :=
| VNumber (n : Z)
| VString (s : string)
| VNull.

(** What the action does to the outside, one constructor per kind of call. *)
Inductive Event : Type :=
| EInfo (message : string)
| EDebug (message : string)
| EWarning (message : string)
| ESetFailed (message : string)
| EConsoleLog (message : string)
| ESetOutput (name : string) (value : Value)
| EListRepoWorkflows (owner repo : option string)
| ERequest (route : string) (ref : string) (inputs : Json)
| EListWorkflowRuns (owner repo : option string) (workflow_id : Z)
    (branch : string) (per_page : Z)
| EGetWorkflowRun (owner repo : option string) (run_id : Z)
| ESleep (ms : Z).

(** The answer to a call that can fail: it returns a value (an awaited promise
    is fulfilled with it), or throws an [Error] carrying a message (the
    promise is rejected with it). *)
Inductive Answer (A : Type) : Type :=
| Returns (a : A)
| Throws (message : string).
Arguments Returns {A} a.
Arguments Throws {A} message.

(** The environment of one invocation: the task runner ([core.getInput], the
    context of the triggering run, which is taken to be present, and the
    version of [package.json]), the JavaScript runtime ([JSON.parse], whose
    error is a [SyntaxError] with a message, [JSON.stringify], [Date.now] and
    the parsing of a date string, [None] when the date is invalid) and the
    platform client.  The run listing, the run fetch and the clock are asked
    many times: their answers are indexed by the number of earlier calls of
    the same kind. *)
Record World : Type := {
  getInput : string -> string;
  context_ref : string;
  context_owner : string;
  context_repo : string;
  version : string;
  JSON_parse : string -> Answer Json;
  JSON_stringify : list Workflow.t -> string;
  getOctokit : string -> Answer unit;
  listRepoWorkflows : option string -> option string -> Answer (list Workflow.t);
  request_dispatch : string -> string -> Json -> Answer Z;
  listWorkflowRuns :
    nat -> option string -> option string -> Z -> string -> Z -> Answer (list Run.t);
  getWorkflowRun : nat -> option string -> option string -> Z -> Answer Run.t;
  Date_now : nat -> Z;
  Date_parse : string -> Js.Date
}.

(** The state of one invocation: the trace so far, oldest event first, and the
    number of calls already made to each indexed oracle. *)
Record State : Type := {
  trace : list Event;
  listRuns_calls : nat;
  getRun_calls : nat;
  now_calls : nat
}.

Definition initial : State :=
  {| trace := []; listRuns_calls := 0; getRun_calls := 0; now_calls := 0 |}.

(** ** The monad of the action *)

(** How a computation completes: normally with a value, abruptly with a thrown
    error, or not within the fuel it was given. *)
Inductive Completion (A : Type) : Type :=
| Normal (a : A)
| Thrown (message : string)
| Pending.
Arguments Normal {A} a.
Arguments Thrown {A} message.
Arguments Pending {A}.

Definition M (A : Type) : Type := State -> Completion A * State.

Definition M_ret {A : Type} (a : A) : M A := fun s => (Normal a, s).

Definition M_bind {A B : Type} (m : M A) (k : A -> M B) : M B :=
  fun s =>
    match m s with
    | (Normal a, s') => k a s'
    | (Thrown message, s') => (Thrown message, s')
    | (Pending, s') => (Pending, s')
    end.

Definition M_throw {A : Type} (message : string) : M A :=
  fun s => (Thrown message, s).

(** [try { m } catch (error) { handler(error.message) }] *)
Definition M_catch {A : Type} (m : M A) (handler : string -> M A) : M A :=
  fun s =>
    match m s with
    | (Thrown message, s') => handler message s'
    | other => other
    end.

Definition pending {A : Type} : M A := fun s => (Pending, s).

#[global] Instance Monad_M : Monad M :=
  {| ret := @M_ret; bind := @M_bind |}.

#[global] Instance MonadExc_M : MonadExc string M :=
  {| raise := @M_throw; catch := @M_catch |}.

(** [while (cond(x)) { x = body(x) }], with a bound on the iterations. *)
Fixpoint while {X : Type} (fuel : nat) (cond : X -> bool) (body : X -> M X) (x : X)
  : M X :=
  if cond x then
    match fuel with
    | O => pending
    | S fuel' => x' <- body x ;; while fuel' cond body x'
    end
  else ret x.

(** ** Primitive actions *)

(** Append an event to the trace. *)
Definition record (e : Event) (s : State) : State :=
  {| trace := trace s ++ [e];
     listRuns_calls := listRuns_calls s;
     getRun_calls := getRun_calls s;
     now_calls := now_calls s |}.

Definition count_listRuns (s : State) : State :=
  {| trace := trace s;
     listRuns_calls := S (listRuns_calls s);
     getRun_calls := getRun_calls s;
     now_calls := now_calls s |}.

Definition count_getRun (s : State) : State :=
  {| trace := trace s;
     listRuns_calls := listRuns_calls s;
     getRun_calls := S (getRun_calls s);
     now_calls := now_calls s |}.

Definition count_now (s : State) : State :=
  {| trace := trace s;
     listRuns_calls := listRuns_calls s;
     getRun_calls := getRun_calls s;
     now_calls := S (now_calls s) |}.

Definition emit (e : Event) : M unit := fun s => (Normal tt, record e s).

(** The call completes the way it was answered. *)
Definition settle {A : Type} (r : Answer A) : M A :=
  match r with
  | Returns a => ret a
  | Throws message => raise message
  end.

Definition core_info (message : string) : M unit := emit (EInfo message).
Definition core_debug (message : string) : M unit := emit (EDebug message).
Definition core_warning (message : string) : M unit := emit (EWarning message).
Definition core_setFailed (message : string) : M unit := emit (ESetFailed message).
Definition core_setOutput (name : string) (value : Value) : M unit :=
  emit (ESetOutput name value).
Definition console_log (message : string) : M unit := emit (EConsoleLog message).

(** [await new Promise(resolve => setTimeout(resolve, ms))] *)
Definition sleep (ms : Z) : M unit := emit (ESleep ms).

Section Action.

Variable w : World.

Definition octokit_paginate_listRepoWorkflows (owner repo : option string)
  : M (list Workflow.t) :=
  emit (EListRepoWorkflows owner repo) ;;
  settle (listRepoWorkflows w owner repo).

Definition octokit_request (route ref : string) (inputs : Json) : M Z :=
  emit (ERequest route ref inputs) ;;
  settle (request_dispatch w route ref inputs).

Definition octokit_listWorkflowRuns (owner repo : option string) (workflow_id : Z)
  (branch : string) (per_page : Z) : M (list Run.t) :=
  fun s =>
    settle (listWorkflowRuns w (listRuns_calls s) owner repo workflow_id branch per_page)
      (count_listRuns
         (record (EListWorkflowRuns owner repo workflow_id branch per_page) s)).

Definition octokit_getWorkflowRun (owner repo : option string) (run_id : Z)
  : M Run.t :=
  fun s =>
    settle (getWorkflowRun w (getRun_calls s) owner repo run_id)
      (count_getRun (record (EGetWorkflowRun owner repo run_id) s)).

(** [Date.now()] *)
Definition Date_now_read : M Z :=
  fun s => (Normal (Date_now w (now_calls s)), count_now s).

(** ** Input resolution (lines 25-39) *)

(** [core.getInput('ref') || github.context.ref] *)
Definition resolve_ref : string :=
  if Js.truthy (getInput w "ref") then getInput w "ref" else context_ref w.

(** [const [owner, repo] = core.getInput('repo') ? core.getInput('repo').split('/')
    : [github.context.repo.owner, github.context.repo.repo]]; a missing
    array element destructures to [undefined] ([None]). *)
Definition resolve_owner_repo : option string * option string :=
  let parts :=
    if Js.truthy (getInput w "repo") then Js.split (getInput w "repo") "/"
    else [context_owner w; context_repo w] in
  (nth_error parts 0, nth_error parts 1).

(** [let inputs = {}; if (inputsJson) inputs = JSON.parse(inputsJson)] *)
Definition decode_inputs (inputsJson : string) : M Json :=
  if Js.truthy inputsJson then settle (JSON_parse w inputsJson)
  else ret (JObject []).

(** ** Workflow location (lines 58-67) *)

Definition matches (workflowRef : string) (workflow : Workflow.t) : bool :=
  String.eqb (Workflow.name workflow) workflowRef
  || String.eqb (Js.Number_toString (Workflow.id workflow)) workflowRef
  || Js.endsWith (Workflow.path workflow) ("/" ++ workflowRef)
  || String.eqb (Workflow.path workflow) workflowRef.

Definition not_found_message (workflowRef : string) (owner repo : option string)
  : string :=
  "Unable to find workflow '" ++ workflowRef ++ "' in "
    ++ Js.interpolate owner ++ "/" ++ Js.interpolate repo ++ " 😥".

Definition locate (workflows : list Workflow.t) (workflowRef : string)
  (owner repo : option string) : M Workflow.t :=
  match find (matches workflowRef) workflows with
  | Some foundWorkflow => ret foundWorkflow
  | None => raise (not_found_message workflowRef owner repo)
  end.

(** ** Run correlation (lines 86-111) *)

Definition maxAttempts : Z := 30.

(** [new Date(latestRun.created_at) > new Date(Date.now() - 60000)] *)
Definition created_recently (latestRun : Run.t) (now : Z) : bool :=
  Js.Date_gt (Date_parse w (Run.created_at latestRun)) (Js.new_Date (now - 60000)).

Definition branch_of (ref : string) : string := Js.replace ref "refs/heads/" "".

Definition is_null {A : Type} (x : option A) : bool :=
  match x with
  | Some _ => false
  | None => true
  end.

(** The loop state is the pair of [workflowRun] and [attempts]. *)
Definition correlator_cond (x : option Run.t * Z) : bool :=
  is_null (fst x) && (snd x <? maxAttempts).

Definition correlator_body (owner repo : option string) (workflow_id : Z)
  (ref : string) (x : option Run.t * Z) : M (option Run.t * Z) :=
  let attempts := snd x in
  workflow_runs <- octokit_listWorkflowRuns owner repo workflow_id (branch_of ref) 1 ;;
  match workflow_runs with
  | latestRun :: _ =>
      now <- Date_now_read ;;
      if created_recently latestRun now then
        console_log ("📋 Workflow run started with ID: "
                       ++ Js.Number_toString (Run.id latestRun)) ;;
        ret (Some latestRun, attempts)
      else
        sleep 2000 ;;
        ret (fst x, attempts + 1)
  | [] =>
      sleep 2000 ;;
      ret (fst x, attempts + 1)
  end.

Definition correlate (fuel : nat) (owner repo : option string) (workflow_id : Z)
  (ref : string) : M Run.t :=
  x <- while fuel correlator_cond (correlator_body owner repo workflow_id ref)
         (None, 0) ;;
  match fst x with
  | Some workflowRun => ret workflowRun
  | None => raise "Timed out waiting for workflow run to start"
  end.

(** ** Completion polling (lines 115-126) *)

Definition not_completed (workflowRun : Run.t) : bool :=
  negb (String.eqb (Run.status workflowRun) "completed").

Definition poller_body (owner repo : option string) (workflowRun : Run.t)
  : M Run.t :=
  data <- octokit_getWorkflowRun owner repo (Run.id workflowRun) ;;
  (if not_completed data then sleep 5000 else ret tt) ;;
  ret data.

Definition poll (fuel : nat) (owner repo : option string) (workflowRun : Run.t)
  : M Run.t :=
  while fuel not_completed (poller_body owner repo) workflowRun.

Definition conclusion_value (workflowRun : Run.t) : Value :=
  match Run.conclusion workflowRun with
  | Some c => VString c
  | None => VNull
  end.

(** ** The guarded region (lines 24-132), phase by phase *)

Definition dispatch_route (owner repo : option string) (workflow_id : Z) : string :=
  "POST /repos/" ++ Js.interpolate owner ++ "/" ++ Js.interpolate repo
    ++ "/actions/workflows/" ++ Js.Number_toString workflow_id ++ "/dispatches".

(** Lines 25-82: from the inputs to the [workflowId] output. *)
Definition dispatch_phase : M Workflow.t :=
  let workflowRef := getInput w "workflow" in
  let token := getInput w "token" in
  let ref := resolve_ref in
  let owner := fst resolve_owner_repo in
  let repo := snd resolve_owner_repo in
  inputs <- decode_inputs (getInput w "inputs") ;;
  settle (getOctokit w token) ;;
  workflows <- octokit_paginate_listRepoWorkflows owner repo ;;
  core_debug "### START List Workflows response data" ;;
  core_debug (JSON_stringify w workflows) ;;
  core_debug "### END:  List Workflows response data" ;;
  foundWorkflow <- locate workflows workflowRef owner repo ;;
  console_log ("🔎 Found workflow, id: " ++ Js.Number_toString (Workflow.id foundWorkflow)
                 ++ ", name: " ++ Workflow.name foundWorkflow
                 ++ ", path: " ++ Workflow.path foundWorkflow) ;;
  console_log "🚀 Calling GitHub API to dispatch workflow..." ;;
  dispatchResp_status <-
    octokit_request (dispatch_route owner repo (Workflow.id foundWorkflow)) ref inputs ;;
  core_info ("🏆 API response status: " ++ Js.Number_toString dispatchResp_status) ;;
  core_setOutput "workflowId" (VNumber (Workflow.id foundWorkflow)) ;;
  ret foundWorkflow.

(** Lines 84-111: wait for the run to start. *)
Definition correlation_phase (fuel : nat) (foundWorkflow : Workflow.t) : M Run.t :=
  console_log "⌛ Waiting for workflow run to start..." ;;
  correlate fuel (fst resolve_owner_repo) (snd resolve_owner_repo)
    (Workflow.id foundWorkflow) resolve_ref.

(** Lines 113-132: wait for the run to complete and report it. *)
Definition completion_phase (fuel : nat) (owner repo : option string)
  (workflowRun : Run.t) : M unit :=
  console_log "⏳ Waiting for workflow run to complete..." ;;
  workflowRun <- poll fuel owner repo workflowRun ;;
  core_setOutput "workflow_run_id" (VNumber (Run.id workflowRun)) ;;
  core_setOutput "workflow_run_status" (VString (Run.status workflowRun)) ;;
  core_setOutput "workflow_run_conclusion" (conclusion_value workflowRun) ;;
  console_log ("✨ Workflow run completed with conclusion: "
                 ++ Js.interpolate_nullable (Run.conclusion workflowRun)).

Definition after_dispatch (fuel : nat) (foundWorkflow : Workflow.t) : M unit :=
  workflowRun <- correlation_phase fuel foundWorkflow ;;
  completion_phase fuel (fst resolve_owner_repo) (snd resolve_owner_repo) workflowRun.

Definition guarded (fuel : nat) : M unit :=
  foundWorkflow <- dispatch_phase ;;
  after_dispatch fuel foundWorkflow.

(** ** The handler (lines 134-143) *)

Definition handler (message : string) : M unit :=
  if Js.endsWith message "a disabled workflow" then
    core_warning "Workflow is disabled, no action was taken"
  else
    core_setFailed message.

(** ** [run] (lines 21-144) *)

Definition banner : string := "🏃 Workflow Dispatch Action v" ++ version w.

Definition run (fuel : nat) : M unit :=
  core_info banner ;;
  catch (guarded fuel) handler.

End Action.

(** ** What an observer sees of a trace *)

Definition output_of (e : Event) : list (string * Value) :=
  match e with
  | ESetOutput name value => [(name, value)]
  | _ => []
  end.

(** The outputs set by a sequence of events, in the order they were set. *)
Definition outputs_in (events : list Event) : list (string * Value) :=
  flat_map output_of events.

(** The outputs set so far. *)
Definition outputs (s : State) : list (string * Value) := outputs_in (trace s).

Definition is_network_call (e : Event) : bool :=
  match e with
  | EListRepoWorkflows _ _ | ERequest _ _ _ | EListWorkflowRuns _ _ _ _ _
  | EGetWorkflowRun _ _ _ => true
  | _ => false
  end.

(** The calls sent to the platform so far. *)
Definition network_calls (s : State) : list Event :=
  filter is_network_call (trace s).

Definition failure_of (e : Event) : list string :=
  match e with
  | ESetFailed message => [message]
  | _ => []
  end.

(** The messages the invocation was failed with; it succeeds when there is
    none. *)
Definition failures (s : State) : list string := flat_map failure_of (trace s).

Definition warning_of (e : Event) : list string :=
  match e with
  | EWarning message => [message]
  | _ => []
  end.

Definition warnings (s : State) : list string := flat_map warning_of (trace s).

Definition fetch_of (e : Event) : list Z :=
  match e with
  | EGetWorkflowRun _ _ run_id => [run_id]
  | _ => []
  end.

(** The run ids fetched so far. *)
Definition fetched_ids (s : State) : list Z := flat_map fetch_of (trace s).

(** [sub] occurs in [s]. *)
Definition contains (s sub : string) : Prop :=
  exists before after, s = before ++ sub ++ after.

(** ** Disciplines on what a computation adds to the trace *)

(** However [m] completes, it only appends events, all of them in [P]. *)
Definition appends {A : Type} (P : Event -> Prop) (m : M A) : Prop :=
  forall s, exists added, trace (snd (m s)) = (trace s ++ added)%list /\ Forall P added.

Definition sets_no_output (e : Event) : Prop := output_of e = [].

(** ** The environment as the specification describes it *)

(** The four forms under which a workflow answers to an identifier: its name,
    its numeric id rendered as a string, a path ending in [/] followed by the
    identifier, or the path itself. *)
Definition answers_to (workflowRef : string) (workflow : Workflow.t) : Prop :=
  Workflow.name workflow = workflowRef \/
  Js.Number_toString (Workflow.id workflow) = workflowRef \/
  (exists p, Workflow.path workflow = p ++ "/" ++ workflowRef) \/
  Workflow.path workflow = workflowRef.

(** What one unsuccessful attempt of the correlator adds to the trace. *)
Definition stale_attempt (owner repo : option string) (workflow_id : Z) (ref : string)
  : list Event :=
  [EListWorkflowRuns owner repo workflow_id (branch_of ref) 1; ESleep 2000].

(** No eligible run is returned on any of [n] successive attempts, the first of
    which makes the [i]-th run listing and, when a run is listed, the [k]-th
    reading of the clock. *)
Fixpoint no_eligible_run (w : World) (owner repo : option string) (workflow_id : Z)
  (ref : string) (n i k : nat) : bool :=
  match n with
  | O => true
  | S n' =>
      match listWorkflowRuns w i owner repo workflow_id (branch_of ref) 1 with
      | Returns [] => no_eligible_run w owner repo workflow_id ref n' (S i) k
      | Returns (latestRun :: _) =>
          negb (created_recently w latestRun (Date_now w k))
          && no_eligible_run w owner repo workflow_id ref n' (S i) (S k)
      | Throws _ => false
      end
  end.

(** What is known of an accepted run, in the state [s] reached from [s0]: it
    heads the latest listing made, and passed the recency test against the
    latest reading of the clock. *)
Definition accepted (w : World) (owner repo : option string) (workflow_id : Z)
  (ref : string) (s0 : State) (x : option Run.t * Z) (s : State) : Prop :=
  match fst x with
  | None => True
  | Some workflowRun =>
      exists i k rest,
        listRuns_calls s = S i /\ (listRuns_calls s0 <= i)%nat /\
        now_calls s = S k /\ (now_calls s0 <= k)%nat /\
        listWorkflowRuns w i owner repo workflow_id (branch_of ref) 1
        = Returns (workflowRun :: rest) /\
        created_recently w workflowRun (Date_now w k) = true
  end.

Definition not_before (s0 s : State) : Prop :=
  (listRuns_calls s0 <= listRuns_calls s)%nat /\ (now_calls s0 <= now_calls s)%nat.

(** What one iteration of the poller adds to the trace when the fetched run is
    not completed yet. *)
Definition pending_fetch (owner repo : option string) (run_id : Z) : list Event :=
  [EGetWorkflowRun owner repo run_id; ESleep 5000].

(** The three outputs that report a run. *)
Definition run_outputs (run_id : Z) (status : string) (conclusion : Value)
  : list (string * Value) :=
  [ ("workflow_run_id", VNumber run_id);
    ("workflow_run_status", VString status);
    ("workflow_run_conclusion", conclusion) ].

(** What the dispatch phase adds to the trace when it goes through. *)
Definition dispatch_events (w : World) (workflows : list Workflow.t)
  (foundWorkflow : Workflow.t) (inputs : Json) (status : Z) : list Event :=
  let owner := fst (resolve_owner_repo w) in
  let repo := snd (resolve_owner_repo w) in
  [ EListRepoWorkflows owner repo;
    EDebug "### START List Workflows response data";
    EDebug (JSON_stringify w workflows);
    EDebug "### END:  List Workflows response data";
    EConsoleLog ("🔎 Found workflow, id: " ++ Js.Number_toString (Workflow.id foundWorkflow)
                   ++ ", name: " ++ Workflow.name foundWorkflow
                   ++ ", path: " ++ Workflow.path foundWorkflow);
    EConsoleLog "🚀 Calling GitHub API to dispatch workflow...";
    ERequest (dispatch_route owner repo (Workflow.id foundWorkflow)) (resolve_ref w) inputs;
    EInfo ("🏆 API response status: " ++ Js.Number_toString status);
    ESetOutput "workflowId" (VNumber (Workflow.id foundWorkflow)) ].

(** What the handler adds to the trace. *)
Definition handler_event (message : string) : Event :=
  if Js.endsWith message "a disabled workflow"
  then EWarning "Workflow is disabled, no action was taken"
  else ESetFailed message.

(** The state in which the guarded region is entered. *)
Definition entered (w : World) : State := record (EInfo (banner w)) initial.

(** The two events by which the handler gives its verdict. *)
Definition is_verdict (e : Event) : bool :=
  match e with
  | EWarning _ | ESetFailed _ => true
  | _ => false
  end.

Definition no_verdict (e : Event) : Prop := is_verdict e = false.

(** The events of the two waiting loops and of the final report. *)
Definition is_waiting_event (e : Event) : bool :=
  match e with
  | EConsoleLog _ | EListWorkflowRuns _ _ _ _ _ | EGetWorkflowRun _ _ _ | ESleep _
  | ESetOutput _ _ => true
  | _ => false
  end.

(** A dispatch request carries the payload [inputs]. *)
Definition carries (inputs : Json) (e : Event) : Prop :=
  match e with
  | ERequest _ _ payload => payload = inputs
  | _ => True
  end.

(** The arguments of a run listing made for [workflow_id] on reference [ref]. *)
Definition lists_latest_run (owner repo : option string) (workflow_id : Z)
  (ref : string) (e : Event) : Prop :=
  match e with
  | EListWorkflowRuns owner' repo' workflow_id' branch per_page =>
      owner' = owner /\ repo' = repo /\ workflow_id' = workflow_id /\
      branch = branch_of ref /\ per_page = 1
  | _ => True
  end.

(** ** Sample environments *)

Definition double_quote : string := String "034" "".

(** The text of the JSON object with the one member [x], of value 1. *)
Definition sample_json : string :=
  "{" ++ double_quote ++ "x" ++ double_quote ++ ":1}".

Definition sample_JSON_parse (text : string) : Answer Json :=
  if String.eqb text sample_json then Returns (JObject [("x", JNumber 1 0)])
  else if String.eqb text "" then Throws "Unexpected end of JSON input"
  else Throws "Unexpected token b in JSON at position 1".

Definition sample_Date_parse (text : string) : Js.Date :=
  if String.eqb text "2023-11-14T22:13:20Z" then Some 1700000000000
  else if String.eqb text "2023-11-14T21:13:20Z" then Some 1699996400000
  else None.

(** The inputs of an invocation of workflow [deploy.yml], with a token. *)
Definition sample_inputs (repo ref inputs : string) (name : string) : string :=
  if String.eqb name "workflow" then "deploy.yml"
  else if String.eqb name "token" then "secret"
  else if String.eqb name "repo" then repo
  else if String.eqb name "ref" then ref
  else if String.eqb name "inputs" then inputs
  else "".

(** A run created five seconds before the first reading of the sample clock,
    and one created an hour earlier. *)
Definition fresh_run (status : string) (conclusion : option string) : Run.t :=
  Run.mk 501 status conclusion "2023-11-14T22:13:20Z".

Definition stale_run : Run.t :=
  Run.mk 400 "completed" (Some "success") "2023-11-14T21:13:20Z".

Definition sample_workflows : list Workflow.t :=
  [ Workflow.mk 11 "CI" ".github/workflows/ci.yml";
    Workflow.mk 12 "deploy.yml" "tools/deploy";
    Workflow.mk 13 "Deploy" ".github/workflows/deploy.yml" ].

(** An environment in the context of repository [octo/demo] on branch [main],
    listing [sample_workflows], with a clock that advances two seconds from
    one reading to the next. *)
Definition sample_world (inputs : string -> string) (dispatched : Answer Z)
  (listed : nat -> Answer (list Run.t)) (fetched : nat -> Z -> Answer Run.t) : World :=
  {| getInput := inputs;
     context_ref := "refs/heads/main";
     context_owner := "octo";
     context_repo := "demo";
     version := "1.2.4";
     JSON_parse := sample_JSON_parse;
     JSON_stringify := fun _ => "[...]";
     getOctokit := fun token =>
       if Js.truthy token then Returns tt
       else Throws "Parameter token or opts.auth is required";
     listRepoWorkflows := fun _ _ => Returns sample_workflows;
     request_dispatch := fun _ _ _ => dispatched;
     listWorkflowRuns := fun i _ _ _ _ _ => listed i;
     getWorkflowRun := fun i _ _ run_id => fetched i run_id;
     Date_now := fun k => 1700000005000 + 2000 * Z.of_nat k;
     Date_parse := sample_Date_parse |}.

(** The run shows up at the third listing, and is found completed at the
    third fetch. *)
Definition slow_start (i : nat) : Answer (list Run.t) :=
  if (i <? 2)%nat then Returns [stale_run] else Returns [fresh_run "queued" None].

Definition slow_finish (i : nat) (run_id : Z) : Answer Run.t :=
  if (i <? 2)%nat then Returns (Run.mk run_id "in_progress" None "2023-11-14T22:13:20Z")
  else Returns (Run.mk run_id "completed" (Some "success") "2023-11-14T22:13:20Z").

(** No run of the dispatch ever shows up: the listing is empty, or holds the
    run of an hour ago. *)
Definition never_started (i : nat) : Answer (list Run.t) :=
  if Nat.even i then Returns [] else Returns [stale_run].

(** The run listing is refused. *)
Definition listing_refused (i : nat) : Answer (list Run.t) :=
  Throws "Cannot list the runs of a disabled workflow".

Definition usual_world : World :=
  sample_world (sample_inputs "" "" "") (Returns 204) slow_start slow_finish.

Definition timeout_world : World :=
  sample_world (sample_inputs "" "" "") (Returns 204) never_started slow_finish.

Definition disabled_world : World :=
  sample_world (sample_inputs "" "" "")
    (Throws "Cannot trigger a 'workflow_dispatch' on a disabled workflow")
    slow_start slow_finish.

Definition disabled_later_world : World :=
  sample_world (sample_inputs "" "" "") (Returns 204) listing_refused slow_finish.

Definition unauthorized_world : World :=
  sample_world (sample_inputs "" "" "") (Throws "Bad credentials") slow_start slow_finish.

Definition bad_json_world : World :=
  sample_world (sample_inputs "" "" "{bad json") (Returns 204) slow_start slow_finish.

Definition json_world : World :=
  sample_world (sample_inputs "" "" sample_json) (Returns 204) slow_start slow_finish.

Definition owner_only_world : World :=
  sample_world (sample_inputs "octo" "" "") (Returns 204) slow_start slow_finish.

Definition inner_ref_world : World :=
  sample_world (sample_inputs "" "release/refs/heads/v1" "") (Returns 204)
    slow_start slow_finish.

(** ** Further observations and environments *)

Definition sleep_of (e : Event) : Z :=
  match e with
  | ESleep ms => ms
  | _ => 0
  end.

(** The time slept by a sequence of events, in milliseconds. *)
Definition slept_in (events : list Event) : Z :=
  fold_right (fun e total => sleep_of e + total) 0 events.

Definition is_run_listing (e : Event) : bool :=
  match e with
  | EListWorkflowRuns _ _ _ _ _ => true
  | _ => false
  end.

Definition is_dispatch_request (e : Event) : bool :=
  match e with
  | ERequest _ _ _ => true
  | _ => false
  end.

(** The iterations the correlator may still make from a loop state. *)
Definition attempts_left (x : option Run.t * Z) : nat :=
  if correlator_cond x then Z.to_nat (maxAttempts - snd x) else 0%nat.

(** The readings of the clock made by [n] successive unsuccessful attempts,
    the first of which makes the [i]-th run listing: one for each listing
    that is not empty. *)
Fixpoint clock_readings (w : World) (owner repo : option string) (workflow_id : Z)
  (ref : string) (n i : nat) : nat :=
  match n with
  | O => O
  | S n' =>
      match listWorkflowRuns w i owner repo workflow_id (branch_of ref) 1 with
      | Returns (_ :: _) => S (clock_readings w owner repo workflow_id ref n' (S i))
      | _ => clock_readings w owner repo workflow_id ref n' (S i)
      end
  end.

(** The run listing fails at the third call. *)
Definition listing_breaks (i : nat) : Answer (list Run.t) :=
  if (i <? 2)%nat then Returns [stale_run] else Throws "Server Error".

(** The run fetch fails at the second call. *)
Definition fetch_breaks (i : nat) (run_id : Z) : Answer Run.t :=
  if (i <? 1)%nat then Returns (Run.mk run_id "in_progress" None "2023-11-14T22:13:20Z")
  else Throws "Server Error".

Definition listing_breaks_world : World :=
  sample_world (sample_inputs "" "" "") (Returns 204) listing_breaks slow_finish.

Definition fetch_breaks_world : World :=
  sample_world (sample_inputs "" "" "") (Returns 204) slow_start fetch_breaks.

(** Inputs that name the workflow only: no token is given. *)
Definition inputs_without_token (name : string) : string :=
  if String.eqb name "workflow" then "deploy.yml" else "".

(** Inputs that name a workflow the repository does not have. *)
Definition inputs_of_unknown_workflow (name : string) : string :=
  if String.eqb name "workflow" then "release.yml"
  else if String.eqb name "token" then "secret"
  else "".

(** The environment [w], but with the workflow listing answered by [answer]. *)
Definition with_workflow_listing (answer : Answer (list Workflow.t)) (w : World) : World :=
  {| getInput := getInput w;
     context_ref := context_ref w;
     context_owner := context_owner w;
     context_repo := context_repo w;
     version := version w;
     JSON_parse := JSON_parse w;
     JSON_stringify := JSON_stringify w;
     getOctokit := getOctokit w;
     listRepoWorkflows := fun _ _ => answer;
     request_dispatch := request_dispatch w;
     listWorkflowRuns := listWorkflowRuns w;
     getWorkflowRun := getWorkflowRun w;
     Date_now := Date_now w;
     Date_parse := Date_parse w |}.

Definition no_client_world : World :=
  sample_world inputs_without_token (Returns 204) slow_start slow_finish.

Definition unknown_workflow_world : World :=
  sample_world inputs_of_unknown_workflow (Returns 204) slow_start slow_finish.

Definition unlisted_world : World :=
  with_workflow_listing (Throws "Not Found") usual_world.

Definition two_part_repo_world : World :=
  sample_world (sample_inputs "acme/tools/extra" "" "") (Returns 204) slow_start slow_finish.

(** The newest run was created exactly sixty seconds before the first reading
    of the clock. *)
Definition boundary_run : Run.t :=
  Run.mk 502 "queued" None "2023-11-14T22:12:25Z".

Definition boundary_Date_parse (text : string) : Js.Date :=
  if String.eqb text "2023-11-14T22:12:25Z" then Some 1699999945000
  else sample_Date_parse text.

Definition boundary_world : World :=
  {| getInput := sample_inputs "" "" "";
     context_ref := "refs/heads/main";
     context_owner := "octo";
     context_repo := "demo";
     version := "1.2.4";
     JSON_parse := sample_JSON_parse;
     JSON_stringify := fun _ => "[...]";
     getOctokit := fun _ => Returns tt;
     listRepoWorkflows := fun _ _ => Returns sample_workflows;
     request_dispatch := fun _ _ _ => Returns 204;
     listWorkflowRuns := fun _ _ _ _ _ _ => Returns [boundary_run];
     getWorkflowRun := fun i _ _ run_id => slow_finish i run_id;
     Date_now := fun _ => 1700000005000;
     Date_parse := boundary_Date_parse |}.

(** The run is never found completed. *)
Definition never_finished (i : nat) (run_id : Z) : Answer Run.t :=
  Returns (Run.mk run_id "in_progress" None "2023-11-14T22:13:20Z").

Definition endless_world : World :=
  sample_world (sample_inputs "" "" "") (Returns 204) slow_start never_finished.

(** * Facts *)

(** ** The string primitives *)

Lemma length_append (a b : string) :
  String.length (a ++ b) = (String.length a + String.length b)%nat.
Proof.
  induction a as [|c a IH]; simpl; [reflexivity | now rewrite IH].
Qed.

Lemma append_assoc (a b c : string) : (a ++ b) ++ c = a ++ (b ++ c).
Proof.
  induction a as [|x a IH]; simpl; [reflexivity | now rewrite IH].
Qed.

Lemma drop_append (a b : string) : Js.drop (String.length a) (a ++ b) = b.
Proof.
  induction a as [|c a IH]; simpl; [now destruct b | exact IH].
Qed.

Lemma drop_decompose (n : nat) (s : string) :
  exists p, s = p ++ Js.drop n s.
Proof.
  revert s; induction n as [|n IH]; intros s.
  - exists ""; reflexivity.
  - destruct s as [|c s].
    + exists ""; reflexivity.
    + destruct (IH s) as [p Hp]. exists (String c p). simpl. now rewrite <- Hp.
Qed.

(** [endsWith] decides the suffix relation. *)
Lemma endsWith_spec (s search : string) :
  Js.endsWith s search = true <-> exists p, s = p ++ search.
Proof.
  unfold Js.endsWith; split.
  - intros H. apply andb_prop in H as [_ H]. apply String.eqb_eq in H.
    destruct (drop_decompose (String.length s - String.length search) s) as [p Hp].
    exists p. now rewrite H in Hp.
  - intros [p ->]. rewrite length_append. apply andb_true_intro; split.
    + apply Nat.leb_le; lia.
    + replace (String.length p + String.length search - String.length search)%nat
        with (String.length p) by lia.
      rewrite drop_append. apply String.eqb_refl.
Qed.

Lemma prefix_append (a b : string) : String.prefix a (a ++ b) = true.
Proof.
  induction a as [|c a IH]; simpl.
  - now destruct b.
  - destruct (ascii_dec c c) as [_|n]; [exact IH | now elim n].
Qed.

Lemma replace_unfold (s pattern replacement : string) :
  Js.replace s pattern replacement =
  if String.prefix pattern s
  then replacement ++ Js.drop (String.length pattern) s
  else match s with
       | EmptyString => EmptyString
       | String c s' => String c (Js.replace s' pattern replacement)
       end.
Proof. destruct s; reflexivity. Qed.

(** A leading occurrence of the pattern is the one that is removed. *)
Lemma replace_leading (pattern rest : string) :
  Js.replace (pattern ++ rest) pattern "" = rest.
Proof.
  rewrite replace_unfold, prefix_append. apply drop_append.
Qed.

(** Without an occurrence of the pattern the string is unchanged. *)
Lemma replace_absent (s pattern replacement : string) :
  (forall k, String.prefix pattern (Js.drop k s) = false) ->
  Js.replace s pattern replacement = s.
Proof.
  induction s as [|c s IH]; intros H; rewrite replace_unfold;
    pose proof (H 0%nat) as H0; cbn [Js.drop] in H0; rewrite H0.
  - reflexivity.
  - f_equal. apply IH. intros k. exact (H (S k)).
Qed.

(** Splitting a string without the separator gives the string itself. *)
Lemma split_without_separator (s : string) (sep : ascii) :
  ~ In sep (list_ascii_of_string s) -> Js.split s sep = [s].
Proof.
  induction s as [|c s IH]; intros H; simpl.
  - reflexivity.
  - destruct (Ascii.eqb_spec c sep) as [->|Hne].
    + elim H. now left.
    + rewrite IH; [reflexivity|]. intros Hin. apply H. now right.
Qed.

(** The first piece of a split always exists. *)
Lemma split_first (s : string) (sep : ascii) :
  exists piece pieces, Js.split s sep = piece :: pieces.
Proof.
  induction s as [|c s [piece [pieces IH]]]; simpl.
  - now exists "", [].
  - destruct (Ascii.eqb c sep); [now eexists; eexists|].
    rewrite IH. now eexists; eexists.
Qed.

(** ** The monad *)

Lemma bind_eq {A B : Type} (m : M A) (k : A -> M B) (s : State) :
  bind m k s =
  match m s with
  | (Normal a, s') => k a s'
  | (Thrown message, s') => (Thrown message, s')
  | (Pending, s') => (Pending, s')
  end.
Proof. reflexivity. Qed.

Lemma ret_eq {A : Type} (a : A) (s : State) : (ret a : M A) s = (Normal a, s).
Proof. reflexivity. Qed.

Lemma raise_eq {A : Type} (message : string) (s : State) :
  (raise message : M A) s = (Thrown message, s).
Proof. reflexivity. Qed.

Lemma emit_eq (e : Event) (s : State) : emit e s = (Normal tt, record e s).
Proof. reflexivity. Qed.

Lemma settle_eq {A : Type} (r : Answer A) (s : State) :
  settle r s =
  match r with
  | Returns a => (Normal a, s)
  | Throws message => (Thrown message, s)
  end.
Proof. destruct r; reflexivity. Qed.

(** Run the straight-line part of a computation. *)
Ltac mstep :=
  repeat first
    [ rewrite bind_eq | rewrite ret_eq | rewrite raise_eq | rewrite emit_eq
    | rewrite settle_eq | progress cbv beta iota ].

Lemma catch_eq {A : Type} (m : M A) (h : string -> M A) (s : State) :
  catch m h s =
  match m s with
  | (Thrown message, s') => h message s'
  | other => other
  end.
Proof. reflexivity. Qed.

Lemma while_unfold {X : Type} (fuel : nat) (cond : X -> bool) (body : X -> M X) (x : X) :
  while fuel cond body x =
  if cond x then
    match fuel with
    | O => pending
    | S fuel' => bind (body x) (while fuel' cond body)
    end
  else ret x.
Proof. destruct fuel; reflexivity. Qed.

(** A loop that completes normally has left its condition false. *)
Lemma while_exit {X : Type} (cond : X -> bool) (body : X -> M X) :
  forall fuel x s x' s',
    while fuel cond body x s = (Normal x', s') -> cond x' = false.
Proof.
  induction fuel as [|fuel IH]; intros x s x' s'; rewrite while_unfold;
    destruct (cond x) eqn:Hc.
  - discriminate.
  - intros H; injection H as <- _; exact Hc.
  - rewrite bind_eq. destruct (body x s) as [[x1| |] s1]; try discriminate.
    apply IH.
  - intros H; injection H as <- _; exact Hc.
Qed.

(** An invariant of the loop body holds when the loop completes normally. *)
Lemma while_invariant {X : Type} (cond : X -> bool) (body : X -> M X)
  (I : X -> State -> Prop) :
  (forall x s x' s', I x s -> cond x = true -> body x s = (Normal x', s') -> I x' s') ->
  forall fuel x s x' s',
    I x s -> while fuel cond body x s = (Normal x', s') -> I x' s'.
Proof.
  intros Hbody. induction fuel as [|fuel IH]; intros x s x' s' HI;
    rewrite while_unfold; destruct (cond x) eqn:Hc.
  - discriminate.
  - intros H; injection H as <- <-; exact HI.
  - rewrite bind_eq. destruct (body x s) as [[x1| |] s1] eqn:Hb; try discriminate.
    apply IH. eapply Hbody; eauto.
  - intros H; injection H as <- <-; exact HI.
Qed.

(** ** Trace disciplines *)

Lemma appends_ret {A : Type} (P : Event -> Prop) (a : A) : appends P (ret a).
Proof. intros s. exists []. split; [now rewrite app_nil_r | constructor]. Qed.

Lemma appends_raise {A : Type} (P : Event -> Prop) (message : string) :
  appends P (raise message : M A).
Proof. intros s. exists []. split; [now rewrite app_nil_r | constructor]. Qed.

Lemma appends_pending {A : Type} (P : Event -> Prop) : appends P (@pending A).
Proof. intros s. exists []. split; [now rewrite app_nil_r | constructor]. Qed.

Lemma appends_settle {A : Type} (P : Event -> Prop) (r : Answer A) :
  appends P (settle r).
Proof. destruct r; [apply appends_ret | apply appends_raise]. Qed.

Lemma appends_emit (P : Event -> Prop) (e : Event) : P e -> appends P (emit e).
Proof. intros He s. exists [e]. split; [reflexivity | now constructor]. Qed.

Lemma appends_listWorkflowRuns (P : Event -> Prop) (w : World) owner repo wid branch per_page :
  P (EListWorkflowRuns owner repo wid branch per_page) ->
  appends P (octokit_listWorkflowRuns w owner repo wid branch per_page).
Proof.
  intros He s. exists [EListWorkflowRuns owner repo wid branch per_page].
  split; [|now constructor]. unfold octokit_listWorkflowRuns.
  now destruct (listWorkflowRuns w _ _ _ _ _ _).
Qed.

Lemma appends_getWorkflowRun (P : Event -> Prop) (w : World) owner repo run_id :
  P (EGetWorkflowRun owner repo run_id) ->
  appends P (octokit_getWorkflowRun w owner repo run_id).
Proof.
  intros He s. exists [EGetWorkflowRun owner repo run_id].
  split; [|now constructor]. unfold octokit_getWorkflowRun.
  now destruct (getWorkflowRun w _ _ _ _).
Qed.

Lemma appends_Date_now (P : Event -> Prop) (w : World) : appends P (Date_now_read w).
Proof. intros s. exists []. split; [now rewrite app_nil_r | constructor]. Qed.

Lemma appends_bind {A B : Type} (P : Event -> Prop) (m : M A) (k : A -> M B) :
  appends P m -> (forall a, appends P (k a)) -> appends P (bind m k).
Proof.
  intros Hm Hk s. rewrite bind_eq. destruct (Hm s) as [added [Ht HP]].
  destruct (m s) as [[a| |] s1]; simpl in *; try (now exists added).
  destruct (Hk a s1) as [added' [Ht' HP']].
  exists (added ++ added')%list. split.
  - now rewrite Ht', Ht, app_assoc.
  - apply Forall_app; now split.
Qed.

Lemma appends_while {X : Type} (P : Event -> Prop) (cond : X -> bool) (body : X -> M X) :
  (forall x, appends P (body x)) ->
  forall fuel x, appends P (while fuel cond body x).
Proof.
  intros Hbody. induction fuel as [|fuel IH]; intros x; rewrite while_unfold;
    destruct (cond x).
  - apply appends_pending.
  - apply appends_ret.
  - apply appends_bind; [apply Hbody | exact IH].
  - apply appends_ret.
Qed.

Lemma appends_if {A : Type} (P : Event -> Prop) (b : bool) (m1 m2 : M A) :
  appends P m1 -> appends P m2 -> appends P (if b then m1 else m2).
Proof. now destruct b. Qed.

(** ** The workflow locator *)

Lemma matches_spec (workflowRef : string) (workflow : Workflow.t) :
  matches workflowRef workflow = true <-> answers_to workflowRef workflow.
Proof.
  unfold matches, answers_to.
  rewrite !orb_true_iff, !String.eqb_eq, endsWith_spec. tauto.
Qed.

Lemma find_earliest {A : Type} (f : A -> bool) (l : list A) (x : A) :
  find f l = Some x ->
  exists before after,
    l = (before ++ x :: after)%list /\ f x = true /\
    forall y, In y before -> f y = false.
Proof.
  induction l as [|a l IH]; simpl; [discriminate|].
  destruct (f a) eqn:Hfa.
  - intros H; injection H as ->. exists [], l. repeat split; [assumption|].
    intros y [].
  - intros H. destruct (IH H) as [before [after [-> [Hx Hb]]]].
    exists (a :: before), after. repeat split; [assumption|].
    intros y [<-|Hy]; [assumption | now apply Hb].
Qed.

Lemma contains_intro (before sub after : string) : contains (before ++ sub ++ after) sub.
Proof. now exists before, after. Qed.

Lemma not_found_message_contains (workflowRef : string) (owner repo : option string) :
  contains (not_found_message workflowRef owner repo) workflowRef /\
  contains (not_found_message workflowRef owner repo) (Js.interpolate owner) /\
  contains (not_found_message workflowRef owner repo) (Js.interpolate repo).
Proof.
  unfold not_found_message. repeat split.
  - apply contains_intro.
  - exists ("Unable to find workflow '" ++ workflowRef ++ "' in "),
      ("/" ++ Js.interpolate repo ++ " 😥").
    now rewrite !append_assoc.
  - exists ("Unable to find workflow '" ++ workflowRef ++ "' in "
              ++ Js.interpolate owner ++ "/"), " 😥".
    now rewrite !append_assoc.
Qed.

(** C4. When some listed workflow answers to the identifier (by name, by id
    rendered as a string, by a path ending in [/] and the identifier, or by
    the path itself), the locator returns the earliest such workflow of the
    listing; when none does, it throws an error whose message contains the
    identifier, the owner and the repo. *)
Theorem locate_earliest_or_not_found
  (workflows : list Workflow.t) (workflowRef : string) (owner repo : option string)
  (s : State) :
  ((exists workflow, In workflow workflows /\ answers_to workflowRef workflow) ->
   exists before found after,
     workflows = (before ++ found :: after)%list /\
     answers_to workflowRef found /\
     (forall earlier, In earlier before -> ~ answers_to workflowRef earlier) /\
     locate workflows workflowRef owner repo s = (Normal found, s)) /\
  ((forall workflow, In workflow workflows -> ~ answers_to workflowRef workflow) ->
   exists message,
     locate workflows workflowRef owner repo s = (Thrown message, s) /\
     contains message workflowRef /\
     contains message (Js.interpolate owner) /\
     contains message (Js.interpolate repo)).
Proof.
  unfold locate. split.
  - intros [workflow [Hin Hans]].
    destruct (find (matches workflowRef) workflows) as [found|] eqn:Hfind.
    + destruct (find_earliest _ _ _ Hfind) as [before [after [Hl [Hm Hb]]]].
      exists before, found, after. repeat split; try assumption.
      * now apply matches_spec.
      * intros earlier Hearlier Hans'. apply matches_spec in Hans'.
        rewrite (Hb _ Hearlier) in Hans'. discriminate.
    + apply matches_spec in Hans.
      rewrite (find_none _ _ Hfind _ Hin) in Hans. discriminate.
  - intros Hnone.
    destruct (find (matches workflowRef) workflows) as [found|] eqn:Hfind.
    + apply find_some in Hfind as [Hin Hm]. apply matches_spec in Hm.
      now elim (Hnone _ Hin).
    + exists (not_found_message workflowRef owner repo).
      split; [reflexivity | apply not_found_message_contains].
Qed.

Lemma locate_earliest_or_not_found_witness :
  (exists before found after,
     sample_workflows = (before ++ found :: after)%list /\
     answers_to "deploy.yml" found /\
     (forall earlier, In earlier before -> ~ answers_to "deploy.yml" earlier) /\
     locate sample_workflows "deploy.yml" (Some "octo") (Some "demo") initial
     = (Normal found, initial)) /\
  (exists message,
     locate sample_workflows "release" (Some "octo") (Some "demo") initial
     = (Thrown message, initial) /\
     contains message "release" /\ contains message "octo" /\ contains message "demo").
Proof.
  split.
  - apply (locate_earliest_or_not_found sample_workflows "deploy.yml").
    exists (Workflow.mk 13 "Deploy" ".github/workflows/deploy.yml"). split.
    + simpl; tauto.
    + apply matches_spec. vm_compute. reflexivity.
  - apply (locate_earliest_or_not_found sample_workflows "release" (Some "octo")
             (Some "demo")).
    intros workflow Hin Hans. apply matches_spec in Hans.
    simpl in Hin. destruct Hin as [<-|[<-|[<-|[]]]]; vm_compute in Hans; discriminate.
Defined.

(** ** The run correlator *)

Section Correlator.

Variable w : World.
Variables owner repo : option string.
Variable workflow_id : Z.
Variable ref : string.

(** One iteration, spelled out on the answer of the listing. *)
Lemma correlator_body_eq (x : option Run.t * Z) (s : State) :
  correlator_body w owner repo workflow_id ref x s =
  let s1 :=
    count_listRuns
      (record (EListWorkflowRuns owner repo workflow_id (branch_of ref) 1) s) in
  match listWorkflowRuns w (listRuns_calls s) owner repo workflow_id (branch_of ref) 1 with
  | Throws message => (Thrown message, s1)
  | Returns [] => (Normal (fst x, snd x + 1), record (ESleep 2000) s1)
  | Returns (latestRun :: _) =>
      if created_recently w latestRun (Date_now w (now_calls s)) then
        (Normal (Some latestRun, snd x),
         record (EConsoleLog ("📋 Workflow run started with ID: "
                                ++ Js.Number_toString (Run.id latestRun)))
           (count_now s1))
      else (Normal (fst x, snd x + 1), record (ESleep 2000) (count_now s1))
  end.
Proof.
  unfold correlator_body, octokit_listWorkflowRuns. rewrite bind_eq.
  destruct (listWorkflowRuns w _ _ _ _ _ _) as [[|latestRun rest]|message];
    try reflexivity.
  cbn. destruct (created_recently w latestRun _); reflexivity.
Qed.

(** The recency test accepts exactly the runs whose creation time parses and
    is later than sixty seconds before the time read. *)
Lemma created_recently_spec (latestRun : Run.t) (now : Z) :
  created_recently w latestRun now = true ->
  exists created,
    Date_parse w (Run.created_at latestRun) = Some created /\
    now - 60000 < created.
Proof.
  unfold created_recently, Js.Date_gt, Js.new_Date.
  destruct (Date_parse w _) as [created|]; [|discriminate].
  destruct (Z.abs (now - 60000) <=? 8640000000000000); [|discriminate].
  intros H. exists created. split; [reflexivity | now apply Z.ltb_lt].
Qed.

Lemma correlator_body_accepted (s0 : State) (x x' : option Run.t * Z) (s s' : State) :
  not_before s0 s /\ accepted w owner repo workflow_id ref s0 x s ->
  correlator_cond x = true ->
  correlator_body w owner repo workflow_id ref x s = (Normal x', s') ->
  not_before s0 s' /\ accepted w owner repo workflow_id ref s0 x' s'.
Proof.
  intros [[Hl Hn] _] Hcond. rewrite correlator_body_eq. cbv zeta.
  unfold correlator_cond in Hcond. apply andb_prop in Hcond as [Hnull _].
  destruct (fst x) as [?|] eqn:Hx; [discriminate|].
  destruct (listWorkflowRuns w _ _ _ _ _ _) as [[|latestRun rest]|message] eqn:Hlist.
  - intros H; injection H as <- <-. unfold not_before, accepted; simpl.
    repeat split; lia.
  - destruct (created_recently w latestRun _) eqn:Hrecent;
      intros H; injection H as <- <-; unfold not_before, accepted; simpl.
    + repeat split; try lia.
      exists (listRuns_calls s), (now_calls s), rest. repeat split; auto.
    + repeat split; lia.
  - discriminate.
Qed.

Lemma correlator_loop_accepted (fuel : nat) (s : State) (x' : option Run.t * Z)
  (s' : State) :
  while fuel correlator_cond (correlator_body w owner repo workflow_id ref) (None, 0) s
  = (Normal x', s') ->
  accepted w owner repo workflow_id ref s x' s'.
Proof.
  intros H.
  apply (while_invariant correlator_cond (correlator_body w owner repo workflow_id ref)
           (fun x st => not_before s st /\ accepted w owner repo workflow_id ref s x st)) in H.
  - apply H.
  - intros; eapply correlator_body_accepted; eauto.
  - unfold not_before, accepted; simpl. repeat split; lia.
Qed.

Lemma correlate_eq (fuel : nat) (s : State) :
  correlate w fuel owner repo workflow_id ref s =
  match while fuel correlator_cond (correlator_body w owner repo workflow_id ref)
          (None, 0) s with
  | (Normal (Some workflowRun, _), s') => (Normal workflowRun, s')
  | (Normal (None, _), s') =>
      (Thrown "Timed out waiting for workflow run to start", s')
  | (Thrown message, s') => (Thrown message, s')
  | (Pending, s') => (Pending, s')
  end.
Proof.
  unfold correlate. rewrite bind_eq.
  destruct (while _ _ _ _ _) as [[[[?|] ?]| |] ?]; reflexivity.
Qed.

(** Unsuccessful attempts up to the cap: the loop leaves with no run. *)
Lemma correlator_loop_exhausted :
  forall (n : nat) (attempts : Z) (fuel : nat) (s : State),
    0 <= attempts -> attempts + Z.of_nat n = maxAttempts -> (n <= fuel)%nat ->
    no_eligible_run w owner repo workflow_id ref n (listRuns_calls s) (now_calls s)
    = true ->
    exists s',
      while fuel correlator_cond (correlator_body w owner repo workflow_id ref)
        (None, attempts) s = (Normal (None, maxAttempts), s') /\
      trace s' =
        (trace s ++ concat (repeat (stale_attempt owner repo workflow_id ref) n))%list /\
      listRuns_calls s' = (listRuns_calls s + n)%nat /\
      getRun_calls s' = getRun_calls s.
Proof.
  unfold maxAttempts.
  induction n as [|n IH]; intros attempts fuel s Hpos Hsum Hfuel Hstale;
    rewrite while_unfold.
  - replace attempts with 30 by lia. cbn. exists s.
    repeat split; [now rewrite app_nil_r | lia].
  - assert (Hc : correlator_cond (None, attempts) = true).
    { unfold correlator_cond, maxAttempts; simpl. apply Z.ltb_lt. lia. }
    rewrite Hc. destruct fuel as [|fuel]; [lia|].
    rewrite bind_eq, correlator_body_eq. cbv zeta.
    cbn [no_eligible_run] in Hstale.
    destruct (listWorkflowRuns w _ _ _ _ _ _) as [[|latestRun rest]|message];
      [| apply andb_prop in Hstale as [Hold Hstale];
         apply negb_true_iff in Hold; rewrite Hold
       | discriminate];
      (edestruct (IH (attempts + 1) fuel) as [s' [Hw [Ht [Hl Hg]]]];
       [ | | | | exists s'; cbn [fst snd]; rewrite Hw;
                 repeat split;
                 [ rewrite Ht; cbn; rewrite <- !app_assoc; reflexivity
                 | rewrite Hl; cbn; lia
                 | rewrite Hg; reflexivity ] ]);
      try lia; exact Hstale.
Qed.

(** The correlator needs no more than thirty iterations: with that much
    fuel it returns a run or throws. *)
Lemma correlator_loop_terminates :
  forall (n : nat) (x : option Run.t * Z) (fuel : nat) (s : State),
    maxAttempts <= snd x + Z.of_nat n -> (n <= fuel)%nat ->
    fst (while fuel correlator_cond (correlator_body w owner repo workflow_id ref) x s)
    <> Pending.
Proof.
  unfold maxAttempts.
  induction n as [|n IH]; intros [workflowRun attempts] fuel s Hleft Hfuel;
    cbn [snd] in Hleft; rewrite while_unfold.
  - replace (correlator_cond (workflowRun, attempts)) with false; [discriminate|].
    unfold correlator_cond, maxAttempts; cbn [fst snd]. symmetry.
    apply andb_false_intro2. apply Z.ltb_ge. lia.
  - destruct (correlator_cond (workflowRun, attempts)) eqn:Hcond; [|discriminate].
    destruct fuel as [|fuel]; [lia|].
    rewrite bind_eq, correlator_body_eq. cbv zeta. cbn [fst snd].
    destruct (listWorkflowRuns w _ _ _ _ _ _) as [[|latestRun rest]|message];
      [ apply IH; cbn [snd]; lia | | discriminate ].
    destruct (created_recently w latestRun _); [|apply IH; cbn [snd]; lia].
    rewrite while_unfold. discriminate.
Qed.

Lemma correlate_terminates (fuel : nat) (s : State) :
  (30 <= fuel)%nat ->
  fst (correlate w fuel owner repo workflow_id ref s) <> Pending.
Proof.
  intros Hfuel. rewrite correlate_eq.
  pose proof (correlator_loop_terminates 30 (None, 0) fuel s) as H.
  destruct (while _ _ _ _ _) as [[[[?|] ?]| |] ?]; try discriminate.
  elim H; [unfold maxAttempts; cbn; lia | exact Hfuel | reflexivity].
Qed.

End Correlator.

(** C2. A run the correlator accepts heads the listing of its last attempt,
    its creation time parses, and that time is later than sixty seconds
    before the clock value read at that attempt: a run created earlier is
    never accepted, although it is the most recent run listed. *)
Theorem correlate_accepts_only_recent
  (w : World) (fuel : nat) (owner repo : option string) (workflow_id : Z) (ref : string)
  (s s' : State) (workflowRun : Run.t) :
  correlate w fuel owner repo workflow_id ref s = (Normal workflowRun, s') ->
  exists i k rest created,
    listRuns_calls s' = S i /\ (listRuns_calls s <= i)%nat /\
    now_calls s' = S k /\ (now_calls s <= k)%nat /\
    listWorkflowRuns w i owner repo workflow_id (branch_of ref) 1
    = Returns (workflowRun :: rest) /\
    Date_parse w (Run.created_at workflowRun) = Some created /\
    Date_now w k - 60000 < created.
Proof.
  rewrite correlate_eq.
  destruct (while _ _ _ _ _) as [[[[accepted_run|] attempts]| |] s1] eqn:Hloop;
    try discriminate.
  intros H; injection H as -> ->.
  apply correlator_loop_accepted in Hloop.
  destruct Hloop as [i [k [rest [Hl [Hli [Hn [Hni [Hlist Hrecent]]]]]]]].
  apply created_recently_spec in Hrecent as [created [Hparse Hlt]].
  exists i, k, rest, created. repeat split; assumption.
Qed.

Lemma correlate_accepts_only_recent_witness :
  exists i k rest created,
    listRuns_calls
      (snd (correlate usual_world 30 (Some "octo") (Some "demo") 12 "refs/heads/main"
              initial)) = S i /\
    (listRuns_calls initial <= i)%nat /\
    now_calls
      (snd (correlate usual_world 30 (Some "octo") (Some "demo") 12 "refs/heads/main"
              initial)) = S k /\
    (now_calls initial <= k)%nat /\
    listWorkflowRuns usual_world i (Some "octo") (Some "demo") 12
      (branch_of "refs/heads/main") 1 = Returns (fresh_run "queued" None :: rest) /\
    Date_parse usual_world (Run.created_at (fresh_run "queued" None)) = Some created /\
    Date_now usual_world k - 60000 < created.
Proof.
  apply (correlate_accepts_only_recent usual_world 30 (Some "octo") (Some "demo") 12
           "refs/heads/main" initial).
  vm_compute. reflexivity.
Defined.

(** ** Observations of a state *)

Lemma outputs_record (e : Event) (s : State) :
  outputs (record e s) = (outputs s ++ output_of e)%list.
Proof.
  unfold outputs, outputs_in; simpl. rewrite flat_map_app; simpl. now rewrite app_nil_r.
Qed.

Lemma failures_record (e : Event) (s : State) :
  failures (record e s) = (failures s ++ failure_of e)%list.
Proof. unfold failures; simpl. rewrite flat_map_app; simpl. now rewrite app_nil_r. Qed.

Lemma warnings_record (e : Event) (s : State) :
  warnings (record e s) = (warnings s ++ warning_of e)%list.
Proof. unfold warnings; simpl. rewrite flat_map_app; simpl. now rewrite app_nil_r. Qed.

Lemma fetched_ids_record (e : Event) (s : State) :
  fetched_ids (record e s) = (fetched_ids s ++ fetch_of e)%list.
Proof. unfold fetched_ids; simpl. rewrite flat_map_app; simpl. now rewrite app_nil_r. Qed.

Lemma network_calls_record (e : Event) (s : State) :
  network_calls (record e s) =
  (network_calls s ++ if is_network_call e then [e] else [])%list.
Proof. unfold network_calls; simpl. now rewrite filter_app. Qed.

Lemma outputs_appended (s s' : State) (added : list Event) :
  trace s' = (trace s ++ added)%list -> Forall sets_no_output added ->
  outputs s' = outputs s.
Proof.
  unfold outputs, outputs_in. intros -> H. rewrite flat_map_app.
  replace (flat_map output_of added) with (@nil (string * Value));
    [now rewrite app_nil_r|].
  induction H as [|e added He _ IH]; simpl; [reflexivity|].
  rewrite He. exact IH.
Qed.

(** ** The dispatch phase *)

Lemma decode_inputs_eq (w : World) (inputsJson : string) (s : State) :
  decode_inputs w inputsJson s =
  if Js.truthy inputsJson then
    match JSON_parse w inputsJson with
    | Returns inputs => (Normal inputs, s)
    | Throws message => (Thrown message, s)
    end
  else (Normal (JObject []), s).
Proof.
  unfold decode_inputs. destruct (Js.truthy inputsJson); [|reflexivity].
  destruct (JSON_parse w inputsJson); reflexivity.
Qed.

(** The phase, spelled out on the answers of the environment. *)
Lemma dispatch_phase_eq (w : World) (s : State) :
  dispatch_phase w s =
  let workflowRef := getInput w "workflow" in
  let owner := fst (resolve_owner_repo w) in
  let repo := snd (resolve_owner_repo w) in
  match decode_inputs w (getInput w "inputs") s with
  | (Normal inputs, _) =>
      match getOctokit w (getInput w "token") with
      | Returns _ =>
          let s1 := record (EListRepoWorkflows owner repo) s in
          match listRepoWorkflows w owner repo with
          | Returns workflows =>
              let s2 :=
                record (EDebug "### END:  List Workflows response data")
                  (record (EDebug (JSON_stringify w workflows))
                     (record (EDebug "### START List Workflows response data") s1)) in
              match find (matches workflowRef) workflows with
              | Some foundWorkflow =>
                  let route := dispatch_route owner repo (Workflow.id foundWorkflow) in
                  let s3 :=
                    record (ERequest route (resolve_ref w) inputs)
                      (record (EConsoleLog "🚀 Calling GitHub API to dispatch workflow...")
                         (record
                            (EConsoleLog
                               ("🔎 Found workflow, id: "
                                  ++ Js.Number_toString (Workflow.id foundWorkflow)
                                  ++ ", name: " ++ Workflow.name foundWorkflow
                                  ++ ", path: " ++ Workflow.path foundWorkflow))
                            s2)) in
                  match request_dispatch w route (resolve_ref w) inputs with
                  | Returns status =>
                      (Normal foundWorkflow,
                       record (ESetOutput "workflowId" (VNumber (Workflow.id foundWorkflow)))
                         (record
                            (EInfo ("🏆 API response status: " ++ Js.Number_toString status))
                            s3))
                  | Throws message => (Thrown message, s3)
                  end
              | None => (Thrown (not_found_message workflowRef owner repo), s2)
              end
          | Throws message => (Thrown message, s1)
          end
      | Throws message => (Thrown message, s)
      end
  | (Thrown message, _) => (Thrown message, s)
  | (Pending, _) => (Pending, s)
  end.
Proof.
  unfold dispatch_phase, octokit_paginate_listRepoWorkflows, locate, octokit_request,
    core_debug, core_info, core_setOutput, console_log.
  cbv zeta. rewrite bind_eq, decode_inputs_eq.
  destruct (Js.truthy (getInput w "inputs")); [destruct (JSON_parse w _)|];
    try reflexivity;
    (mstep; destruct (getOctokit w _); [|reflexivity];
     mstep; destruct (listRepoWorkflows w _ _); [|reflexivity];
     mstep; destruct (find _ _); [|mstep; reflexivity];
     mstep; destruct (request_dispatch w _ _ _); mstep; reflexivity).
Qed.

(** ** The completion poller *)

Section Poller.

Variable w : World.
Variables owner repo : option string.

Lemma not_completed_true (workflowRun : Run.t) :
  Run.status workflowRun <> "completed" -> not_completed workflowRun = true.
Proof.
  intros H. unfold not_completed.
  destruct (String.eqb_spec (Run.status workflowRun) "completed"); [contradiction|].
  reflexivity.
Qed.

Lemma not_completed_false (workflowRun : Run.t) :
  Run.status workflowRun = "completed" -> not_completed workflowRun = false.
Proof. intros H. unfold not_completed. now rewrite H. Qed.

(** One iteration, spelled out on the answer of the fetch. *)
Lemma poller_body_eq (workflowRun : Run.t) (s : State) :
  poller_body w owner repo workflowRun s =
  let s1 := count_getRun (record (EGetWorkflowRun owner repo (Run.id workflowRun)) s) in
  match getWorkflowRun w (getRun_calls s) owner repo (Run.id workflowRun) with
  | Returns data =>
      (Normal data, if not_completed data then record (ESleep 5000) s1 else s1)
  | Throws message => (Thrown message, s1)
  end.
Proof.
  unfold poller_body, octokit_getWorkflowRun, sleep. rewrite bind_eq, settle_eq.
  destruct (getWorkflowRun w _ _ _ _) as [data|message]; [|reflexivity].
  destruct (not_completed data); reflexivity.
Qed.

(** A poll that starts on a completed snapshot does nothing. *)
Lemma poll_completed (fuel : nat) (workflowRun : Run.t) (s : State) :
  not_completed workflowRun = false ->
  poll w fuel owner repo workflowRun s = (Normal workflowRun, s).
Proof.
  intros H. unfold poll. rewrite while_unfold, H. reflexivity.
Qed.

(** [n] fetches that find the run not completed, then one that finds it
    completed: with fuel for them the poll stops right there. *)
Lemma poll_stops :
  forall (n : nat) (workflowRun final : Run.t) (s : State) (fuel : nat),
    not_completed workflowRun = true ->
    (forall k, (k < n)%nat ->
       exists snapshot,
         getWorkflowRun w (getRun_calls s + k) owner repo (Run.id workflowRun)
         = Returns snapshot /\
         not_completed snapshot = true /\
         Run.id snapshot = Run.id workflowRun) ->
    getWorkflowRun w (getRun_calls s + n) owner repo (Run.id workflowRun)
    = Returns final ->
    not_completed final = false ->
    (n < fuel)%nat ->
    exists s',
      poll w fuel owner repo workflowRun s = (Normal final, s') /\
      trace s' =
        (trace s
           ++ concat (repeat (pending_fetch owner repo (Run.id workflowRun)) n)
           ++ [EGetWorkflowRun owner repo (Run.id workflowRun)])%list /\
      getRun_calls s' = (getRun_calls s + S n)%nat.
Proof.
  unfold poll.
  induction n as [|n IH]; intros workflowRun final s fuel Hrun Hpending Hfinal Hdone Hfuel;
    (destruct fuel as [|fuel]; [lia|]);
    rewrite while_unfold, Hrun, bind_eq, poller_body_eq; cbv zeta.
  - rewrite Nat.add_0_r in Hfinal. rewrite Hfinal, Hdone.
    rewrite while_unfold, Hdone. eexists; split; [reflexivity|].
    split; [reflexivity | simpl; lia].
  - destruct (Hpending 0%nat) as [snapshot [Hget [Hnot Hid]]]; [lia|].
    rewrite Nat.add_0_r in Hget. rewrite Hget, Hnot.
    match goal with
    | |- context [while fuel _ _ snapshot ?st] =>
        destruct (IH snapshot final st fuel) as [s' [Hpoll [Htrace Hcalls]]];
          [exact Hnot | | | exact Hdone | lia | ]
    end.
    + intros k Hk. destruct (Hpending (S k)) as [r [Hr [Hrn Hrid]]]; [lia|].
      exists r. rewrite Hid. cbn [getRun_calls record count_getRun].
      replace (S (getRun_calls s) + k)%nat with (getRun_calls s + S k)%nat by lia.
      repeat split; assumption.
    + rewrite Hid. cbn [getRun_calls record count_getRun].
      replace (S (getRun_calls s) + n)%nat with (getRun_calls s + S n)%nat by lia.
      exact Hfinal.
    + exists s'. split; [exact Hpoll|]. split.
      * rewrite Htrace, Hid. cbn. rewrite <- !app_assoc. reflexivity.
      * rewrite Hcalls. cbn. lia.
Qed.

(** With fuel for no more than the fetches that find the run not completed,
    the poll is still going on. *)
Lemma poll_goes_on :
  forall (n : nat) (workflowRun : Run.t) (s : State) (fuel : nat),
    not_completed workflowRun = true ->
    (forall k, (k < n)%nat ->
       exists snapshot,
         getWorkflowRun w (getRun_calls s + k) owner repo (Run.id workflowRun)
         = Returns snapshot /\
         not_completed snapshot = true /\
         Run.id snapshot = Run.id workflowRun) ->
    (fuel <= n)%nat ->
    exists s', poll w fuel owner repo workflowRun s = (Pending, s').
Proof.
  unfold poll.
  induction n as [|n IH]; intros workflowRun s fuel Hrun Hpending Hfuel;
    rewrite while_unfold, Hrun; (destruct fuel as [|fuel]; [now eexists|]); [lia|].
  rewrite bind_eq, poller_body_eq; cbv zeta.
  destruct (Hpending 0%nat) as [snapshot [Hget [Hnot Hid]]]; [lia|].
  rewrite Nat.add_0_r in Hget. rewrite Hget, Hnot.
  apply IH; [exact Hnot | | lia].
  intros k Hk. destruct (Hpending (S k)) as [r [Hr [Hrn Hrid]]]; [lia|].
  exists r. rewrite Hid. cbn [getRun_calls record count_getRun].
  replace (S (getRun_calls s) + k)%nat with (getRun_calls s + S k)%nat by lia.
  repeat split; assumption.
Qed.

(** The poller adds fetches and sleeps only. *)
Lemma appends_poll (P : Event -> Prop) (fuel : nat) (workflowRun : Run.t) :
  (forall run_id, P (EGetWorkflowRun owner repo run_id)) -> P (ESleep 5000) ->
  appends P (poll w fuel owner repo workflowRun).
Proof.
  intros Hget Hsleep. apply appends_while. intros x. unfold poller_body.
  apply appends_bind; [now apply appends_getWorkflowRun|]. intros data.
  apply appends_bind; [|intros; apply appends_ret].
  apply appends_if; [now apply appends_emit | apply appends_ret].
Qed.

(** The phase, spelled out on the completion of the poll. *)
Lemma completion_phase_eq (fuel : nat) (workflowRun : Run.t) (s : State) :
  completion_phase w fuel owner repo workflowRun s =
  match poll w fuel owner repo workflowRun
          (record (EConsoleLog "⏳ Waiting for workflow run to complete...") s) with
  | (Normal final, s') =>
      (Normal tt,
       record (EConsoleLog ("✨ Workflow run completed with conclusion: "
                              ++ Js.interpolate_nullable (Run.conclusion final)))
         (record (ESetOutput "workflow_run_conclusion" (conclusion_value final))
            (record (ESetOutput "workflow_run_status" (VString (Run.status final)))
               (record (ESetOutput "workflow_run_id" (VNumber (Run.id final))) s'))))
  | (Thrown message, s') => (Thrown message, s')
  | (Pending, s') => (Pending, s')
  end.
Proof.
  unfold completion_phase, console_log, core_setOutput. mstep.
  destruct (poll w fuel owner repo workflowRun _) as [[final| |] s']; reflexivity.
Qed.

End Poller.

Lemma fetches_of_pending (owner repo : option string) (run_id : Z) (n : nat) :
  flat_map fetch_of (concat (repeat (pending_fetch owner repo run_id) n))
  = repeat run_id n.
Proof. induction n as [|n IH]; [reflexivity|]. cbn. now rewrite IH. Qed.

Lemma outputs_of_pending (owner repo : option string) (run_id : Z) (n : nat) :
  flat_map output_of (concat (repeat (pending_fetch owner repo run_id) n)) = [].
Proof. induction n as [|n IH]; [reflexivity | exact IH]. Qed.

(** C1. Starting from a correlated run that is not completed, let the first
    [n] fetches by its id answer with snapshots of that run that are not
    completed, and the next one with a snapshot [final] that is.  Then the
    poller makes exactly [n + 1] fetches, every one of them by the correlated
    id, stops there, and sets [workflow_run_id] to the correlated id,
    [workflow_run_status] to ["completed"] and [workflow_run_conclusion] to
    the conclusion of [final]; with fewer than [n + 1] iterations allowed it
    has not stopped, and has set nothing. *)
Theorem poller_refetches_until_completed
  (w : World) (owner repo : option string) (workflowRun final : Run.t) (n : nat)
  (s : State) :
  Run.status workflowRun <> "completed" ->
  (forall k, (k < n)%nat ->
     exists snapshot,
       getWorkflowRun w (getRun_calls s + k) owner repo (Run.id workflowRun)
       = Returns snapshot /\
       Run.status snapshot <> "completed" /\
       Run.id snapshot = Run.id workflowRun) ->
  getWorkflowRun w (getRun_calls s + n) owner repo (Run.id workflowRun) = Returns final ->
  Run.status final = "completed" ->
  Run.id final = Run.id workflowRun ->
  (forall fuel, (n < fuel)%nat ->
     exists s',
       completion_phase w fuel owner repo workflowRun s = (Normal tt, s') /\
       fetched_ids s' = (fetched_ids s ++ repeat (Run.id workflowRun) (S n))%list /\
       getRun_calls s' = (getRun_calls s + S n)%nat /\
       outputs s' =
         (outputs s
            ++ run_outputs (Run.id workflowRun) "completed" (conclusion_value final))%list)
  /\
  (forall fuel, (fuel <= n)%nat ->
     exists s',
       completion_phase w fuel owner repo workflowRun s = (Pending, s') /\
       outputs s' = outputs s).
Proof.
  intros Hrun Hpending Hfinal Hdone Hid.
  apply not_completed_true in Hrun. pose proof (not_completed_false _ Hdone) as Hdone'.
  assert (Hpending' : forall k, (k < n)%nat ->
            exists snapshot,
              getWorkflowRun w (getRun_calls s + k) owner repo (Run.id workflowRun)
              = Returns snapshot /\
              not_completed snapshot = true /\
              Run.id snapshot = Run.id workflowRun).
  { intros k Hk. destruct (Hpending k Hk) as [snapshot [H1 [H2 H3]]].
    exists snapshot. repeat split; auto using not_completed_true. }
  split; intros fuel Hfuel; rewrite completion_phase_eq.
  - destruct (poll_stops w owner repo n workflowRun final
                (record (EConsoleLog "⏳ Waiting for workflow run to complete...") s)
                fuel Hrun Hpending' Hfinal Hdone' Hfuel) as [s' [Hpoll [Htrace Hcalls]]].
    rewrite Hpoll. eexists; split; [reflexivity|].
    assert (Hfetched : fetched_ids s'
                       = (fetched_ids s ++ repeat (Run.id workflowRun) (S n))%list).
    { unfold fetched_ids. rewrite Htrace. cbn [trace record].
      rewrite !flat_map_app, fetches_of_pending. cbn [flat_map fetch_of app].
      rewrite app_nil_r, <- repeat_cons. reflexivity. }
    assert (Houtputs : outputs s' = outputs s).
    { unfold outputs, outputs_in. rewrite Htrace. cbn [trace record].
      rewrite !flat_map_app, outputs_of_pending. cbn [flat_map output_of app].
      now rewrite !app_nil_r. }
    repeat split.
    + rewrite !fetched_ids_record. cbn. now rewrite !app_nil_r.
    + exact Hcalls.
    + rewrite !outputs_record, Houtputs, Hdone, Hid. cbn.
      rewrite <- !app_assoc. now rewrite app_nil_r.
  - destruct (poll_goes_on w owner repo n workflowRun
                (record (EConsoleLog "⏳ Waiting for workflow run to complete...") s)
                fuel Hrun Hpending' Hfuel) as [s' Hpoll].
    rewrite Hpoll. exists s'. split; [reflexivity|].
    destruct (appends_poll w owner repo sets_no_output fuel workflowRun
                (fun _ => eq_refl) eq_refl
                (record (EConsoleLog "⏳ Waiting for workflow run to complete...") s))
      as [added [Htrace Hadded]].
    rewrite Hpoll in Htrace. cbn [snd] in Htrace.
    rewrite (outputs_appended _ _ _ Htrace Hadded), outputs_record. cbn.
    now rewrite app_nil_r.
Qed.

Lemma poller_refetches_until_completed_witness :
  (forall fuel, (2 < fuel)%nat ->
     exists s',
       completion_phase usual_world fuel (Some "octo") (Some "demo")
         (fresh_run "queued" None) initial = (Normal tt, s') /\
       fetched_ids s' = [501; 501; 501] /\
       getRun_calls s' = 3%nat /\
       outputs s' = run_outputs 501 "completed" (VString "success"))
  /\
  (forall fuel, (fuel <= 2)%nat ->
     exists s',
       completion_phase usual_world fuel (Some "octo") (Some "demo")
         (fresh_run "queued" None) initial = (Pending, s') /\
       outputs s' = []).
Proof.
  apply (poller_refetches_until_completed usual_world (Some "octo") (Some "demo")
           (fresh_run "queued" None)
           (Run.mk 501 "completed" (Some "success") "2023-11-14T22:13:20Z") 2 initial).
  - simpl. discriminate.
  - intros k Hk. exists (Run.mk 501 "in_progress" None "2023-11-14T22:13:20Z").
    destruct k as [|[|k]]; [| | lia]; simpl; (repeat split; [discriminate]).
  - reflexivity.
  - reflexivity.
  - reflexivity.
Defined.

(** C9. When the snapshot held at correlation time is already completed, the
    poller fetches nothing, and the three run outputs are set from that
    snapshot. *)
Theorem poller_skips_completed_run
  (w : World) (fuel : nat) (owner repo : option string) (workflowRun : Run.t) (s : State) :
  Run.status workflowRun = "completed" ->
  exists s',
    completion_phase w fuel owner repo workflowRun s = (Normal tt, s') /\
    getRun_calls s' = getRun_calls s /\
    fetched_ids s' = fetched_ids s /\
    network_calls s' = network_calls s /\
    outputs s' =
      (outputs s
         ++ run_outputs (Run.id workflowRun) "completed"
              (conclusion_value workflowRun))%list.
Proof.
  intros Hdone. rewrite completion_phase_eq, poll_completed
    by now apply not_completed_false.
  eexists; split; [reflexivity|]. repeat split.
  - rewrite !fetched_ids_record. cbn. now rewrite !app_nil_r.
  - rewrite !network_calls_record. cbn. now rewrite !app_nil_r.
  - rewrite !outputs_record, Hdone. cbn. rewrite <- !app_assoc. now rewrite app_nil_r.
Qed.

Lemma poller_skips_completed_run_witness :
  exists s',
    completion_phase usual_world 0 (Some "octo") (Some "demo") stale_run initial
    = (Normal tt, s') /\
    getRun_calls s' = 0%nat /\
    fetched_ids s' = [] /\
    network_calls s' = [] /\
    outputs s' = run_outputs 400 "completed" (VString "success").
Proof.
  apply (poller_skips_completed_run usual_world 0 (Some "octo") (Some "demo")
           stale_run initial).
  reflexivity.
Defined.

(** ** The phases put together *)

Lemma handler_eq (message : string) (s : State) :
  handler message s = (Normal tt, record (handler_event message) s).
Proof.
  unfold handler, handler_event.
  destruct (Js.endsWith message "a disabled workflow"); reflexivity.
Qed.

Lemma run_eq (w : World) (fuel : nat) :
  run w fuel initial =
  match guarded w fuel (entered w) with
  | (Thrown message, s') => (Normal tt, record (handler_event message) s')
  | other => other
  end.
Proof.
  unfold run, core_info. rewrite bind_eq, emit_eq, catch_eq. fold (entered w).
  destruct (guarded w fuel (entered w)) as [[[]| |] s']; try reflexivity.
  apply handler_eq.
Qed.

Lemma guarded_eq (w : World) (fuel : nat) (s : State) :
  guarded w fuel s =
  match dispatch_phase w s with
  | (Normal foundWorkflow, s1) => after_dispatch w fuel foundWorkflow s1
  | (Thrown message, s1) => (Thrown message, s1)
  | (Pending, s1) => (Pending, s1)
  end.
Proof. reflexivity. Qed.

Lemma after_dispatch_eq (w : World) (fuel : nat) (foundWorkflow : Workflow.t) (s : State) :
  after_dispatch w fuel foundWorkflow s =
  match correlate w fuel (fst (resolve_owner_repo w)) (snd (resolve_owner_repo w))
          (Workflow.id foundWorkflow) (resolve_ref w)
          (record (EConsoleLog "⌛ Waiting for workflow run to start...") s) with
  | (Normal workflowRun, s1) =>
      completion_phase w fuel (fst (resolve_owner_repo w)) (snd (resolve_owner_repo w))
        workflowRun s1
  | (Thrown message, s1) => (Thrown message, s1)
  | (Pending, s1) => (Pending, s1)
  end.
Proof. reflexivity. Qed.

(** The dispatch phase goes through exactly when parsing, the client, the
    listing, the search and the dispatch do; it then has added
    [dispatch_events], and asked neither for runs nor for the time. *)
Lemma dispatch_phase_normal (w : World) (s s1 : State) (foundWorkflow : Workflow.t) :
  dispatch_phase w s = (Normal foundWorkflow, s1) ->
  exists workflows inputs status,
    decode_inputs w (getInput w "inputs") s = (Normal inputs, s) /\
    listRepoWorkflows w (fst (resolve_owner_repo w)) (snd (resolve_owner_repo w))
    = Returns workflows /\
    find (matches (getInput w "workflow")) workflows = Some foundWorkflow /\
    request_dispatch w
      (dispatch_route (fst (resolve_owner_repo w)) (snd (resolve_owner_repo w))
         (Workflow.id foundWorkflow))
      (resolve_ref w) inputs = Returns status /\
    trace s1 = (trace s ++ dispatch_events w workflows foundWorkflow inputs status)%list /\
    listRuns_calls s1 = listRuns_calls s /\
    getRun_calls s1 = getRun_calls s /\
    now_calls s1 = now_calls s.
Proof.
  rewrite dispatch_phase_eq. cbv zeta.
  destruct (decode_inputs w (getInput w "inputs") s) as [[inputs| |] s0] eqn:Hdecode;
    try discriminate.
  assert (s0 = s) as ->.
  { rewrite decode_inputs_eq in Hdecode.
    destruct (Js.truthy _); [destruct (JSON_parse w _)|]; congruence. }
  destruct (getOctokit w _); [|discriminate].
  destruct (listRepoWorkflows w _ _) as [workflows|] eqn:Hlist; [|discriminate].
  destruct (find _ workflows) as [found|] eqn:Hfind; [|discriminate].
  destruct (request_dispatch w _ _ _) as [status|] eqn:Hdispatch; [|discriminate].
  intros H; injection H as <- <-.
  exists workflows, inputs, status. repeat split; try assumption.
  cbn [trace record]. unfold dispatch_events. cbv zeta.
  rewrite <- !app_assoc. reflexivity.
Qed.

(** When the dispatch phase does not go through it has thrown, and set no
    output. *)
Lemma dispatch_phase_abnormal (w : World) (s s1 : State) (c : Completion Workflow.t) :
  dispatch_phase w s = (c, s1) ->
  match c with
  | Normal _ => True
  | Thrown _ => outputs s1 = outputs s
  | Pending => False
  end.
Proof.
  rewrite dispatch_phase_eq. cbv zeta. rewrite decode_inputs_eq.
  destruct (Js.truthy _); [destruct (JSON_parse w _)|];
    try (intros H; injection H as <- <-; reflexivity);
    (destruct (getOctokit w _); [|intros H; injection H as <- <-; reflexivity];
     destruct (listRepoWorkflows w _ _);
       [|intros H; injection H as <- <-; now rewrite !outputs_record, app_nil_r];
     destruct (find _ _);
       [|intros H; injection H as <- <-; rewrite !outputs_record; cbn;
         now rewrite !app_nil_r];
     destruct (request_dispatch w _ _ _); intros H; injection H as <- <-;
       [ exact I | rewrite !outputs_record; cbn; now rewrite !app_nil_r ]).
Qed.

(** The correlator adds listings, sleeps and log lines only. *)
Lemma appends_correlate (P : Event -> Prop) (w : World) (fuel : nat)
  (owner repo : option string) (workflow_id : Z) (ref : string) :
  P (EListWorkflowRuns owner repo workflow_id (branch_of ref) 1) ->
  P (ESleep 2000) -> (forall message, P (EConsoleLog message)) ->
  appends P (correlate w fuel owner repo workflow_id ref).
Proof.
  intros Hlist Hsleep Hlog. unfold correlate. apply appends_bind.
  - apply appends_while. intros x. unfold correlator_body.
    apply appends_bind; [now apply appends_listWorkflowRuns|].
    intros [|latestRun rest].
    + apply appends_bind; [now apply appends_emit | intros; apply appends_ret].
    + apply appends_bind; [apply appends_Date_now|]. intros now.
      apply appends_if;
        (apply appends_bind; [now apply appends_emit | intros; apply appends_ret]).
  - intros [[workflowRun|] attempts]; [apply appends_ret | apply appends_raise].
Qed.

(** After the dispatch phase: either the run is reported, by the three run
    outputs set one after the other from a completed snapshot, or no output
    is set at all. *)
Lemma after_dispatch_outputs (w : World) (fuel : nat) (foundWorkflow : Workflow.t)
  (s s' : State) (c : Completion unit) :
  after_dispatch w fuel foundWorkflow s = (c, s') ->
  match c with
  | Normal _ =>
      exists final before,
        Run.status final = "completed" /\
        outputs_in before = outputs s /\
        trace s' =
          (before
             ++ [ ESetOutput "workflow_run_id" (VNumber (Run.id final));
                  ESetOutput "workflow_run_status" (VString "completed");
                  ESetOutput "workflow_run_conclusion" (conclusion_value final);
                  EConsoleLog ("✨ Workflow run completed with conclusion: "
                                 ++ Js.interpolate_nullable (Run.conclusion final)) ])%list
  | _ => outputs s' = outputs s
  end.
Proof.
  rewrite after_dispatch_eq.
  pose proof (appends_correlate sets_no_output w fuel (fst (resolve_owner_repo w))
                (snd (resolve_owner_repo w)) (Workflow.id foundWorkflow) (resolve_ref w)
                eq_refl eq_refl (fun _ => eq_refl)
                (record (EConsoleLog "⌛ Waiting for workflow run to start...") s))
    as [added [Htrace Hadded]].
  destruct (correlate w fuel _ _ _ _ _) as [[workflowRun| |] s1]; cbn [snd] in Htrace;
    pose proof (outputs_appended _ _ _ Htrace Hadded) as Hout;
    rewrite outputs_record in Hout; cbn in Hout; rewrite app_nil_r in Hout.
  - rewrite completion_phase_eq.
    pose proof (appends_poll w (fst (resolve_owner_repo w)) (snd (resolve_owner_repo w))
                  sets_no_output fuel workflowRun (fun _ => eq_refl) eq_refl
                  (record (EConsoleLog "⏳ Waiting for workflow run to complete...") s1))
      as [added' [Htrace' Hadded']].
    destruct (poll w fuel _ _ workflowRun _) as [[final| |] s2] eqn:Hpoll;
      cbn [snd] in Htrace';
      pose proof (outputs_appended _ _ _ Htrace' Hadded') as Hout';
      rewrite outputs_record in Hout'; cbn in Hout'; rewrite app_nil_r in Hout'.
    + intros H; injection H as <- <-.
      apply while_exit in Hpoll. unfold not_completed in Hpoll.
      apply negb_false_iff, String.eqb_eq in Hpoll.
      exists final, (trace s2). rewrite Hpoll. repeat split.
      * fold (outputs s2). congruence.
      * cbn [trace record]. rewrite <- !app_assoc. reflexivity.
    + intros H; injection H as <- <-. congruence.
    + intros H; injection H as <- <-. congruence.
  - intros H; injection H as <- <-. exact Hout.
  - intros H; injection H as <- <-. exact Hout.
Qed.

Lemma outputs_in_app (a b : list Event) :
  outputs_in (a ++ b) = (outputs_in a ++ outputs_in b)%list.
Proof. apply flat_map_app. Qed.

(** The handler sets no output. *)
Lemma outputs_handled (message : string) (s : State) :
  outputs (record (handler_event message) s) = outputs s.
Proof.
  rewrite outputs_record. unfold handler_event.
  destruct (Js.endsWith message _); apply app_nil_r.
Qed.

(** C7. The outputs of an invocation, in the order they are set.  When the
    dispatch phase goes through, [workflowId] is set right after the dispatch
    call was answered (only the report of its status lies between), and
    nothing was set before.  What follows either reports a completed run, by
    [workflow_run_id], [workflow_run_status] and [workflow_run_conclusion] set
    one after the other, or sets nothing: when correlation or polling throws,
    or polling has not come to an end, [workflowId] is the only output.  When
    the dispatch phase does not go through no output is set at all. *)
Theorem outputs_in_order (w : World) (fuel : nat) :
  match dispatch_phase w (entered w) with
  | (Normal foundWorkflow, s1) =>
      (exists before route inputs status,
         request_dispatch w route (resolve_ref w) inputs = Returns status /\
         outputs_in before = [] /\
         trace s1 =
           (before
              ++ [ ERequest route (resolve_ref w) inputs;
                   EInfo ("🏆 API response status: " ++ Js.Number_toString status);
                   ESetOutput "workflowId" (VNumber (Workflow.id foundWorkflow)) ])%list)
      /\
      match after_dispatch w fuel foundWorkflow s1 with
      | (Normal _, _) =>
          exists final before,
            Run.status final = "completed" /\
            outputs_in before = [("workflowId", VNumber (Workflow.id foundWorkflow))] /\
            trace (snd (run w fuel initial)) =
              (before
                 ++ [ ESetOutput "workflow_run_id" (VNumber (Run.id final));
                      ESetOutput "workflow_run_status" (VString "completed");
                      ESetOutput "workflow_run_conclusion" (conclusion_value final);
                      EConsoleLog ("✨ Workflow run completed with conclusion: "
                                     ++ Js.interpolate_nullable (Run.conclusion final)) ])%list
            /\
            outputs (snd (run w fuel initial)) =
              ("workflowId", VNumber (Workflow.id foundWorkflow))
                :: run_outputs (Run.id final) "completed" (conclusion_value final)
      | (_, _) =>
          outputs (snd (run w fuel initial))
          = [("workflowId", VNumber (Workflow.id foundWorkflow))]
      end
  | (_, _) => outputs (snd (run w fuel initial)) = []
  end.
Proof.
  rewrite run_eq, guarded_eq.
  destruct (dispatch_phase w (entered w)) as [[foundWorkflow|message|] s1] eqn:Hdispatch.
  - destruct (dispatch_phase_normal _ _ _ _ Hdispatch)
      as [workflows [inputs [status [_ [_ [_ [Hanswer [Htrace _]]]]]]]].
    assert (Hout1 : outputs s1 = [("workflowId", VNumber (Workflow.id foundWorkflow))]).
    { unfold outputs. rewrite Htrace. reflexivity. }
    split.
    + eexists (_ ++ _)%list, _, inputs, status. split; [exact Hanswer|].
      split; [|rewrite Htrace; unfold dispatch_events; cbv zeta;
               rewrite <- app_assoc;
               change (?a :: ?b :: ?c :: ?d :: ?e :: ?f :: ?g)
                 with ([a; b; c; d; e; f] ++ g)%list;
               reflexivity].
      reflexivity.
    + destruct (after_dispatch w fuel foundWorkflow s1) as [[[]|message|] s2] eqn:Hafter;
        pose proof (after_dispatch_outputs _ _ _ _ _ _ Hafter) as H; cbn [snd].
      * destruct H as [final [before [Hdone [Hbefore Htrace2]]]].
        exists final, before. repeat split; try assumption; [congruence|].
        unfold outputs. rewrite Htrace2, outputs_in_app, Hbefore, Hout1. reflexivity.
      * rewrite outputs_handled. congruence.
      * congruence.
  - cbn [snd]. rewrite outputs_handled.
    apply dispatch_phase_abnormal in Hdispatch. rewrite Hdispatch. reflexivity.
  - now apply dispatch_phase_abnormal in Hdispatch.
Qed.

(** ** Failures and timeouts *)

Lemma failures_of_stale_attempts (owner repo : option string) (workflow_id : Z)
  (ref : string) (n : nat) :
  flat_map failure_of (concat (repeat (stale_attempt owner repo workflow_id ref) n)) = [].
Proof. induction n as [|n IH]; [reflexivity | exact IH]. Qed.

Lemma outputs_of_stale_attempts (owner repo : option string) (workflow_id : Z)
  (ref : string) (n : nat) :
  outputs_in (concat (repeat (stale_attempt owner repo workflow_id ref) n)) = [].
Proof. induction n as [|n IH]; [reflexivity | exact IH]. Qed.

(** C3. Let the dispatch phase go through, and let no eligible run be
    returned on any of thirty attempts.  Then the invocation makes exactly
    these thirty listings, each followed by a sleep of two seconds, and fails
    with the time-out message; [workflowId] is the only output set: none of
    [workflow_run_id], [workflow_run_status], [workflow_run_conclusion] is. *)
Theorem correlation_times_out
  (w : World) (fuel : nat) (foundWorkflow : Workflow.t) (s1 : State) :
  dispatch_phase w (entered w) = (Normal foundWorkflow, s1) ->
  no_eligible_run w (fst (resolve_owner_repo w)) (snd (resolve_owner_repo w))
    (Workflow.id foundWorkflow) (resolve_ref w) 30 0 0 = true ->
  (30 <= fuel)%nat ->
  exists s',
    run w fuel initial = (Normal tt, s') /\
    trace s' =
      (trace s1
         ++ EConsoleLog "⌛ Waiting for workflow run to start..."
         :: concat (repeat (stale_attempt (fst (resolve_owner_repo w))
                              (snd (resolve_owner_repo w)) (Workflow.id foundWorkflow)
                              (resolve_ref w)) 30)
         ++ [ESetFailed "Timed out waiting for workflow run to start"])%list /\
    failures s' = ["Timed out waiting for workflow run to start"] /\
    outputs s' = [("workflowId", VNumber (Workflow.id foundWorkflow))].
Proof.
  intros Hdispatch Hstale Hfuel.
  destruct (dispatch_phase_normal _ _ _ _ Hdispatch)
    as [workflows [inputs [status [_ [_ [_ [_ [Htrace1 [Hl1 [_ Hn1]]]]]]]]]].
  rewrite run_eq, guarded_eq, Hdispatch, after_dispatch_eq, correlate_eq.
  destruct (correlator_loop_exhausted w (fst (resolve_owner_repo w))
              (snd (resolve_owner_repo w)) (Workflow.id foundWorkflow) (resolve_ref w)
              30 0 fuel
              (record (EConsoleLog "⌛ Waiting for workflow run to start...") s1))
    as [s2 [Hloop [Htrace2 _]]]; [lia | reflexivity | exact Hfuel | |].
  { cbn [listRuns_calls now_calls record]. rewrite Hl1, Hn1. exact Hstale. }
  rewrite Hloop. eexists; split; [reflexivity|].
  assert (Htrace : trace (record (handler_event "Timed out waiting for workflow run to start") s2)
                   = (trace s1
                        ++ EConsoleLog "⌛ Waiting for workflow run to start..."
                        :: concat (repeat (stale_attempt (fst (resolve_owner_repo w))
                                             (snd (resolve_owner_repo w))
                                             (Workflow.id foundWorkflow)
                                             (resolve_ref w)) 30)
                        ++ [ESetFailed "Timed out waiting for workflow run to start"])%list).
  { cbn [trace record]. rewrite Htrace2. cbn [trace record].
    rewrite <- !app_assoc. reflexivity. }
  split; [exact Htrace|]. split.
  - unfold failures. rewrite Htrace, Htrace1.
    rewrite !flat_map_app. cbn [flat_map failure_of app].
    rewrite flat_map_app, failures_of_stale_attempts. reflexivity.
  - unfold outputs, outputs_in. rewrite Htrace, Htrace1.
    rewrite !flat_map_app. cbn [flat_map output_of app].
    rewrite flat_map_app. fold (outputs_in (concat (repeat (stale_attempt
      (fst (resolve_owner_repo w)) (snd (resolve_owner_repo w))
      (Workflow.id foundWorkflow) (resolve_ref w)) 30))).
    rewrite outputs_of_stale_attempts. reflexivity.
Qed.

Lemma correlation_times_out_witness :
  exists s',
    run timeout_world 30 initial = (Normal tt, s') /\
    trace s' =
      (trace (snd (dispatch_phase timeout_world (entered timeout_world)))
         ++ EConsoleLog "⌛ Waiting for workflow run to start..."
         :: concat (repeat (stale_attempt (Some "octo") (Some "demo") 12
                              "refs/heads/main") 30)
         ++ [ESetFailed "Timed out waiting for workflow run to start"])%list /\
    failures s' = ["Timed out waiting for workflow run to start"] /\
    outputs s' = [("workflowId", VNumber 12)].
Proof.
  apply (correlation_times_out timeout_world 30
           (Workflow.mk 12 "deploy.yml" "tools/deploy")
           (snd (dispatch_phase timeout_world (entered timeout_world)))).
  - vm_compute. reflexivity.
  - vm_compute. reflexivity.
  - lia.
Defined.

(** ** The handler *)

Lemma flat_map_appended {B : Type} (f : Event -> list B) (s s' : State)
  (added : list Event) :
  trace s' = (trace s ++ added)%list -> Forall (fun e => f e = []) added ->
  flat_map f (trace s') = flat_map f (trace s).
Proof.
  intros -> H. rewrite flat_map_app.
  replace (flat_map f added) with (@nil B); [now rewrite app_nil_r|].
  induction H as [|e added He _ IH]; simpl; [reflexivity|].
  rewrite He. exact IH.
Qed.

(** After the dispatch the invocation only waits and reports. *)
Lemma appends_after_dispatch (P : Event -> Prop) (w : World) (fuel : nat)
  (foundWorkflow : Workflow.t) :
  (forall e, is_waiting_event e = true -> P e) ->
  appends P (after_dispatch w fuel foundWorkflow).
Proof.
  intros HP.
  assert (Hemit : forall e, is_waiting_event e = true -> appends P (emit e)).
  { intros e He. apply appends_emit, HP, He. }
  unfold after_dispatch, correlation_phase, completion_phase, console_log, core_setOutput.
  apply appends_bind.
  - apply appends_bind; [now apply Hemit | intros _].
    apply (appends_correlate P w fuel); intros; now apply HP.
  - intros workflowRun. apply appends_bind; [now apply Hemit | intros _].
    apply appends_bind; [apply (appends_poll w); intros; now apply HP|].
    intros final. do 3 (apply appends_bind; [now apply Hemit | intros _]).
    now apply Hemit.
Qed.

(** The guarded region adds to the trace neither a warning nor a failure. *)
Lemma appends_guarded (P : Event -> Prop) (w : World) (fuel : nat) :
  (forall e, no_verdict e -> P e) -> appends P (guarded w fuel).
Proof.
  intros HP.
  assert (Hemit : forall e, no_verdict e -> appends P (emit e)).
  { intros e He. apply appends_emit, HP, He. }
  unfold guarded. apply appends_bind.
  - unfold dispatch_phase, decode_inputs, octokit_paginate_listRepoWorkflows, locate,
      octokit_request, core_debug, core_info, core_setOutput, console_log.
    cbv zeta.
    apply appends_bind; [apply appends_if; [apply appends_settle | apply appends_ret]|].
    intros inputs. apply appends_bind; [apply appends_settle|]. intros _.
    apply appends_bind;
      [apply appends_bind; [now apply Hemit | intros; apply appends_settle]|].
    intros workflows.
    do 3 (apply appends_bind; [now apply Hemit | intros _]).
    apply appends_bind;
      [destruct (find _ workflows); [apply appends_ret | apply appends_raise]|].
    intros foundWorkflow.
    do 2 (apply appends_bind; [now apply Hemit | intros _]).
    apply appends_bind;
      [apply appends_bind; [now apply Hemit | intros; apply appends_settle]|].
    intros status.
    do 2 (apply appends_bind; [now apply Hemit | intros _]).
    apply appends_ret.
  - intros foundWorkflow. apply appends_after_dispatch.
    intros e He. apply HP. now destruct e.
Qed.

Lemma guarded_gives_no_verdict (w : World) (fuel : nat) (c : Completion unit) (s1 : State) :
  guarded w fuel (entered w) = (c, s1) -> failures s1 = [] /\ warnings s1 = [].
Proof.
  intros H.
  destruct (appends_guarded no_verdict w fuel (fun e He => He) (entered w))
    as [added [Htrace Hadded]].
  rewrite H in Htrace. cbn [snd] in Htrace. split.
  - unfold failures. rewrite (flat_map_appended failure_of _ _ _ Htrace); [reflexivity|].
    eapply Forall_impl; [|exact Hadded]. now intros [].
  - unfold warnings. rewrite (flat_map_appended warning_of _ _ _ Htrace); [reflexivity|].
    eapply Forall_impl; [|exact Hadded]. now intros [].
Qed.

Lemma dispatch_phase_outputs (w : World) (foundWorkflow : Workflow.t) (s1 : State) :
  dispatch_phase w (entered w) = (Normal foundWorkflow, s1) ->
  outputs s1 = [("workflowId", VNumber (Workflow.id foundWorkflow))].
Proof.
  intros H. destruct (dispatch_phase_normal _ _ _ _ H)
    as [workflows [inputs [status [_ [_ [_ [_ [Htrace _]]]]]]]].
  unfold outputs. rewrite Htrace. reflexivity.
Qed.

(** C5 (as amended).  Let the guarded region throw an error.  The invocation
    then returns normally.  When the message of the error ends with
    [a disabled workflow], a warning is logged and the invocation is not
    failed; otherwise it is failed with that very message.  In both cases the
    handler sets no output: the outputs are those set before the error, none
    when the error arose up to the dispatch call, and [workflowId] alone when
    it arose after. *)
Theorem handler_outcome (w : World) (fuel : nat) (message : string) (s1 : State) :
  guarded w fuel (entered w) = (Thrown message, s1) ->
  fst (run w fuel initial) = Normal tt /\
  ((exists p, message = p ++ "a disabled workflow") ->
   trace (snd (run w fuel initial))
   = (trace s1 ++ [EWarning "Workflow is disabled, no action was taken"])%list /\
   warnings (snd (run w fuel initial)) = ["Workflow is disabled, no action was taken"] /\
   failures (snd (run w fuel initial)) = []) /\
  (~ (exists p, message = p ++ "a disabled workflow") ->
   trace (snd (run w fuel initial)) = (trace s1 ++ [ESetFailed message])%list /\
   warnings (snd (run w fuel initial)) = [] /\
   failures (snd (run w fuel initial)) = [message]) /\
  outputs (snd (run w fuel initial)) = outputs s1 /\
  match dispatch_phase w (entered w) with
  | (Normal foundWorkflow, _) =>
      outputs (snd (run w fuel initial))
      = [("workflowId", VNumber (Workflow.id foundWorkflow))]
  | (_, _) => outputs (snd (run w fuel initial)) = []
  end.
Proof.
  intros Hguarded. destruct (guarded_gives_no_verdict _ _ _ _ Hguarded) as [Hf Hw].
  rewrite run_eq, Hguarded. cbn [fst snd].
  split; [reflexivity|]. split; [|split; [|split]].
  - intros Hends. apply endsWith_spec in Hends.
    rewrite failures_record, warnings_record, Hf, Hw.
    unfold handler_event. rewrite Hends. repeat split.
  - intros Hends.
    assert (Hends' : Js.endsWith message "a disabled workflow" = false).
    { destruct (Js.endsWith message _) eqn:E; [|reflexivity].
      elim Hends. now apply endsWith_spec. }
    rewrite failures_record, warnings_record, Hf, Hw.
    unfold handler_event. rewrite Hends'. repeat split.
  - apply outputs_handled.
  - rewrite outputs_handled. rewrite guarded_eq in Hguarded.
    destruct (dispatch_phase w (entered w)) as [[foundWorkflow|message'|] s0] eqn:Hdispatch.
    + apply after_dispatch_outputs in Hguarded. rewrite Hguarded.
      exact (dispatch_phase_outputs w _ _ Hdispatch).
    + injection Hguarded as _ <-.
      apply dispatch_phase_abnormal in Hdispatch. rewrite Hdispatch. reflexivity.
    + discriminate.
Qed.

Lemma handler_outcome_witness :
  (warnings (snd (run disabled_world 30 initial))
   = ["Workflow is disabled, no action was taken"] /\
   failures (snd (run disabled_world 30 initial)) = [] /\
   outputs (snd (run disabled_world 30 initial)) = []) /\
  (warnings (snd (run unauthorized_world 30 initial)) = [] /\
   failures (snd (run unauthorized_world 30 initial)) = ["Bad credentials"]).
Proof.
  split.
  - destruct (handler_outcome disabled_world 30
                "Cannot trigger a 'workflow_dispatch' on a disabled workflow"
                (snd (guarded disabled_world 30 (entered disabled_world))))
      as [_ [Hdisabled [_ [_ Houtputs]]]].
    + vm_compute. reflexivity.
    + assert (Hends : exists p,
                "Cannot trigger a 'workflow_dispatch' on a disabled workflow"
                = p ++ "a disabled workflow")
        by (exists "Cannot trigger a 'workflow_dispatch' on "; reflexivity).
      destruct (Hdisabled Hends) as [_ [Hw Hf]].
      split; [exact Hw | split; [exact Hf | exact Houtputs]].
  - destruct (handler_outcome unauthorized_world 30 "Bad credentials"
                (snd (guarded unauthorized_world 30 (entered unauthorized_world))))
      as [_ [_ [Hother _]]].
    + vm_compute. reflexivity.
    + assert (Hends : ~ exists p, "Bad credentials" = p ++ "a disabled workflow").
      { intros Hends. apply endsWith_spec in Hends. vm_compute in Hends. discriminate. }
      destruct (Hother Hends) as [_ [Hw Hf]].
      split; [exact Hw | exact Hf].
Defined.

(** The claim C5 as it is worded fails when the error arises after the
    dispatch: its message ends with [a disabled workflow], the invocation
    succeeds with a warning, and yet an output is set. *)
Lemma disabled_error_after_dispatch_sets_output :
  exists message s1,
    guarded disabled_later_world 30 (entered disabled_later_world)
    = (Thrown message, s1) /\
    (exists p, message = p ++ "a disabled workflow") /\
    failures (snd (run disabled_later_world 30 initial)) = [] /\
    warnings (snd (run disabled_later_world 30 initial))
    = ["Workflow is disabled, no action was taken"] /\
    outputs (snd (run disabled_later_world 30 initial)) = [("workflowId", VNumber 12)] /\
    outputs (snd (run disabled_later_world 30 initial)) <> [].
Proof.
  exists "Cannot list the runs of a disabled workflow",
    (snd (guarded disabled_later_world 30 (entered disabled_later_world))).
  split; [vm_compute; reflexivity|].
  split; [exists "Cannot list the runs of "; reflexivity|].
  repeat split; try (vm_compute; reflexivity).
  vm_compute. discriminate.
Qed.

(** ** A complete invocation

    In [usual_world] the run of an hour ago is listed twice before the new
    run shows up, which is then fetched three times. *)
Example usual_invocation :
  run usual_world 30 initial =
  (Normal tt,
   {| trace :=
        [ EInfo "🏃 Workflow Dispatch Action v1.2.4";
          EListRepoWorkflows (Some "octo") (Some "demo");
          EDebug "### START List Workflows response data";
          EDebug "[...]";
          EDebug "### END:  List Workflows response data";
          EConsoleLog "🔎 Found workflow, id: 12, name: deploy.yml, path: tools/deploy";
          EConsoleLog "🚀 Calling GitHub API to dispatch workflow...";
          ERequest "POST /repos/octo/demo/actions/workflows/12/dispatches"
            "refs/heads/main" (JObject []);
          EInfo "🏆 API response status: 204";
          ESetOutput "workflowId" (VNumber 12);
          EConsoleLog "⌛ Waiting for workflow run to start...";
          EListWorkflowRuns (Some "octo") (Some "demo") 12 "main" 1;
          ESleep 2000;
          EListWorkflowRuns (Some "octo") (Some "demo") 12 "main" 1;
          ESleep 2000;
          EListWorkflowRuns (Some "octo") (Some "demo") 12 "main" 1;
          EConsoleLog "📋 Workflow run started with ID: 501";
          EConsoleLog "⏳ Waiting for workflow run to complete...";
          EGetWorkflowRun (Some "octo") (Some "demo") 501;
          ESleep 5000;
          EGetWorkflowRun (Some "octo") (Some "demo") 501;
          ESleep 5000;
          EGetWorkflowRun (Some "octo") (Some "demo") 501;
          ESetOutput "workflow_run_id" (VNumber 501);
          ESetOutput "workflow_run_status" (VString "completed");
          ESetOutput "workflow_run_conclusion" (VString "success");
          EConsoleLog "✨ Workflow run completed with conclusion: success" ];
      listRuns_calls := 3;
      getRun_calls := 3;
      now_calls := 3 |}).
Proof. vm_compute. reflexivity. Qed.

(** ** The trace of an invocation, phase by phase *)

(** The trace of an invocation is its banner, what the dispatch phase added,
    what the waiting added, and the verdict of the handler if there is one. *)
Lemma run_trace (w : World) (fuel : nat) :
  exists dispatching waiting verdict,
    trace (snd (dispatch_phase w (entered w))) = EInfo (banner w) :: dispatching /\
    trace (snd (run w fuel initial))
    = (EInfo (banner w) :: dispatching ++ waiting ++ verdict)%list /\
    Forall (fun e => is_waiting_event e = true) waiting /\
    Forall (fun e => is_verdict e = true) verdict.
Proof.
  assert (Hverdict : forall message, is_verdict (handler_event message) = true).
  { intros message. unfold handler_event. now destruct (Js.endsWith message _). }
  rewrite run_eq, guarded_eq.
  destruct (dispatch_phase w (entered w)) as [[foundWorkflow|message|] s1] eqn:Hdispatch.
  - destruct (dispatch_phase_normal _ _ _ _ Hdispatch)
      as [workflows [inputs [status [_ [_ [_ [_ [Htrace _]]]]]]]].
    destruct (appends_after_dispatch (fun e => is_waiting_event e = true) w fuel
                foundWorkflow (fun e He => He) s1) as [waiting [Hwaiting Hall]].
    exists (dispatch_events w workflows foundWorkflow inputs status), waiting.
    destruct (after_dispatch w fuel foundWorkflow s1) as [[[]|message|] s2];
      cbn [snd] in *.
    + exists []. rewrite Hwaiting, Htrace, app_nil_r. repeat split; auto.
    + exists [handler_event message]. cbn [trace record].
      rewrite Hwaiting, Htrace. cbn [trace entered record initial app].
      rewrite <- !app_assoc. repeat split; auto.
    + exists []. rewrite Hwaiting, Htrace, app_nil_r. repeat split; auto.
  - pose proof (appends_guarded (fun _ => True) w 0 (fun _ _ => I) (entered w))
      as [added [Hadded _]].
    rewrite guarded_eq, Hdispatch in Hadded. cbn [snd] in *.
    exists added, [], [handler_event message]. cbn [trace record].
    rewrite Hadded. cbn [trace entered record initial app].
    repeat split; auto.
  - now apply dispatch_phase_abnormal in Hdispatch.
Qed.

(** What the dispatch phase adds, by the answers it gets: nothing when the
    inputs do not parse or the client is refused, and otherwise the workflow
    listing first; a request it makes carries the decoded inputs, and it
    makes one when the workflows are listed and one of them is found. *)
Lemma dispatch_phase_trace (w : World) (s : State) :
  match decode_inputs w (getInput w "inputs") s with
  | (Normal inputs, _) =>
      match getOctokit w (getInput w "token") with
      | Returns _ =>
          exists more,
            trace (snd (dispatch_phase w s)) =
              (trace s
                 ++ EListRepoWorkflows (fst (resolve_owner_repo w))
                      (snd (resolve_owner_repo w)) :: more)%list /\
            Forall (carries inputs) more /\
            forall workflows foundWorkflow,
              listRepoWorkflows w (fst (resolve_owner_repo w)) (snd (resolve_owner_repo w))
              = Returns workflows ->
              find (matches (getInput w "workflow")) workflows = Some foundWorkflow ->
              In (ERequest
                    (dispatch_route (fst (resolve_owner_repo w))
                       (snd (resolve_owner_repo w)) (Workflow.id foundWorkflow))
                    (resolve_ref w) inputs) more
      | Throws message => dispatch_phase w s = (Thrown message, s)
      end
  | (Thrown message, _) => dispatch_phase w s = (Thrown message, s)
  | (Pending, _) => False
  end.
Proof.
  rewrite dispatch_phase_eq. cbv zeta.
  destruct (decode_inputs w (getInput w "inputs") s) as [[inputs|message|] s0] eqn:Hdecode.
  - destruct (getOctokit w _); [|reflexivity].
    destruct (listRepoWorkflows w _ _) as [workflows|message].
    + destruct (find _ workflows) as [foundWorkflow|] eqn:Hfind.
      * destruct (request_dispatch w _ _ _) as [status|message];
          cbn [snd trace record]; rewrite <- !app_assoc; cbn [app];
          (eexists; split; [reflexivity|]; split;
           [ repeat constructor
           | intros workflows' found' Hw Hf; injection Hw as <-;
             rewrite Hfind in Hf; injection Hf as <-; cbn; tauto ]).
      * cbn [snd trace record]; rewrite <- !app_assoc; cbn [app].
        eexists; split; [reflexivity|]. split; [repeat constructor|].
        intros workflows' found' Hw Hf; injection Hw as <-.
        rewrite Hfind in Hf. discriminate.
    + cbn [snd trace record]. exists []. split; [reflexivity|].
      split; [constructor|]. discriminate.
  - reflexivity.
  - rewrite decode_inputs_eq in Hdecode.
    destruct (Js.truthy _); [destruct (JSON_parse w _)|]; discriminate.
Qed.

Lemma truthy_nonempty (text : string) : text <> "" -> Js.truthy text = true.
Proof. destruct text; [contradiction | reflexivity]. Qed.

Lemma network_calls_handled (message : string) (s : State) :
  network_calls (record (handler_event message) s) = network_calls s.
Proof.
  rewrite network_calls_record. unfold handler_event.
  destruct (Js.endsWith message _); apply app_nil_r.
Qed.

(** The owner is never [undefined]. *)
Lemma owner_always_defined (w : World) :
  exists owner, fst (resolve_owner_repo w) = Some owner.
Proof.
  unfold resolve_owner_repo. destruct (Js.truthy (getInput w "repo")).
  - destruct (split_first (getInput w "repo") "/") as [piece [pieces ->]].
    now exists piece.
  - now exists (context_owner w).
Qed.

(** ** The inputs of the dispatch *)

(** Once the inputs are decoded, every dispatch request of the invocation
    carries them, and one is made when the client is granted, the workflows
    are listed and one of them is found. *)
Lemma requests_carry_decoded_inputs (w : World) (fuel : nat) (inputs : Json) :
  decode_inputs w (getInput w "inputs") (entered w) = (Normal inputs, entered w) ->
  (forall route ref payload,
     In (ERequest route ref payload) (trace (snd (run w fuel initial))) ->
     payload = inputs) /\
  (forall workflows foundWorkflow,
     (exists client, getOctokit w (getInput w "token") = Returns client) ->
     listRepoWorkflows w (fst (resolve_owner_repo w)) (snd (resolve_owner_repo w))
     = Returns workflows ->
     find (matches (getInput w "workflow")) workflows = Some foundWorkflow ->
     In (ERequest
           (dispatch_route (fst (resolve_owner_repo w)) (snd (resolve_owner_repo w))
              (Workflow.id foundWorkflow))
           (resolve_ref w) inputs)
       (trace (snd (run w fuel initial)))).
Proof.
  intros Hdecode.
  destruct (run_trace w fuel) as [dispatching [waiting [verdict [Hd [Hrun [Hw Hv]]]]]].
  pose proof (dispatch_phase_trace w (entered w)) as Hphase.
  rewrite Hdecode in Hphase. rewrite Hrun. split.
  - intros route ref payload [Hin|Hin]; [discriminate|].
    apply in_app_or in Hin as [Hin|Hin]; [|apply in_app_or in Hin as [Hin|Hin]].
    + destruct (getOctokit w _).
      * destruct Hphase as [more [Htrace [Hcarries _]]].
        rewrite Hd in Htrace. cbn in Htrace. injection Htrace as ->.
        destruct Hin as [Hin|Hin]; [discriminate|].
        rewrite Forall_forall in Hcarries. exact (Hcarries _ Hin).
      * rewrite Hphase in Hd. cbn in Hd. injection Hd as <-. destruct Hin.
    + rewrite Forall_forall in Hw. specialize (Hw _ Hin). discriminate.
    + rewrite Forall_forall in Hv. specialize (Hv _ Hin). discriminate.
  - intros workflows foundWorkflow [client Hclient] Hlist Hfind.
    rewrite Hclient in Hphase. destruct Hphase as [more [Htrace [_ Hrequest]]].
    rewrite Hd in Htrace. cbn in Htrace. injection Htrace as ->.
    right. apply in_or_app. left. right. exact (Hrequest _ _ Hlist Hfind).
Qed.

(** C6. Let the inputs string be present, that is, not empty.  When it is
    not valid JSON ([JSON.parse] throws; the message of its [SyntaxError]
    does not end with [a disabled workflow]), the guarded region throws that
    error at once and the invocation is failed with its message: no call has
    been sent to the platform, no output is set and no warning is given.
    When it is valid JSON, the parsed value is the payload of every dispatch
    request of the invocation, and of the one that is made once the client
    is created, the workflows are listed and one of them is found. *)
Theorem inputs_decoded_before_any_call (w : World) (fuel : nat) :
  getInput w "inputs" <> "" ->
  (forall message,
     JSON_parse w (getInput w "inputs") = Throws message ->
     ~ (exists p, message = p ++ "a disabled workflow") ->
     guarded w fuel (entered w) = (Thrown message, entered w) /\
     run w fuel initial = (Normal tt, record (ESetFailed message) (entered w)) /\
     network_calls (snd (run w fuel initial)) = [] /\
     outputs (snd (run w fuel initial)) = [] /\
     failures (snd (run w fuel initial)) = [message] /\
     warnings (snd (run w fuel initial)) = []) /\
  (forall inputs,
     JSON_parse w (getInput w "inputs") = Returns inputs ->
     (forall route ref payload,
        In (ERequest route ref payload) (trace (snd (run w fuel initial))) ->
        payload = inputs) /\
     (forall workflows foundWorkflow,
        (exists client, getOctokit w (getInput w "token") = Returns client) ->
        listRepoWorkflows w (fst (resolve_owner_repo w)) (snd (resolve_owner_repo w))
        = Returns workflows ->
        find (matches (getInput w "workflow")) workflows = Some foundWorkflow ->
        In (ERequest
              (dispatch_route (fst (resolve_owner_repo w)) (snd (resolve_owner_repo w))
                 (Workflow.id foundWorkflow))
              (resolve_ref w) inputs)
          (trace (snd (run w fuel initial))))).
Proof.
  intros Hpresent. split.
  - intros message Hparse Hends.
    assert (Hguarded : guarded w fuel (entered w) = (Thrown message, entered w)).
    { rewrite guarded_eq. pose proof (dispatch_phase_trace w (entered w)) as Hphase.
      rewrite decode_inputs_eq, (truthy_nonempty _ Hpresent), Hparse in Hphase.
      now rewrite Hphase. }
    assert (Hevent : handler_event message = ESetFailed message).
    { unfold handler_event. destruct (Js.endsWith message _) eqn:E; [|reflexivity].
      elim Hends. now apply endsWith_spec. }
    split; [exact Hguarded|]. rewrite run_eq, Hguarded, Hevent. cbn [snd].
    split; [reflexivity|]. repeat split.
  - intros inputs Hparse. apply requests_carry_decoded_inputs.
    now rewrite decode_inputs_eq, (truthy_nonempty _ Hpresent), Hparse.
Qed.

Lemma inputs_decoded_before_any_call_witness :
  (guarded bad_json_world 30 (entered bad_json_world)
   = (Thrown "Unexpected token b in JSON at position 1", entered bad_json_world) /\
   run bad_json_world 30 initial
   = (Normal tt,
      record (ESetFailed "Unexpected token b in JSON at position 1")
        (entered bad_json_world)) /\
   network_calls (snd (run bad_json_world 30 initial)) = [] /\
   outputs (snd (run bad_json_world 30 initial)) = [] /\
   failures (snd (run bad_json_world 30 initial))
   = ["Unexpected token b in JSON at position 1"] /\
   warnings (snd (run bad_json_world 30 initial)) = []) /\
  In (ERequest "POST /repos/octo/demo/actions/workflows/12/dispatches" "refs/heads/main"
        (JObject [("x", JNumber 1 0)]))
    (trace (snd (run json_world 30 initial))).
Proof.
  split.
  - destruct (inputs_decoded_before_any_call bad_json_world 30) as [Hbad _].
    + vm_compute. discriminate.
    + apply (Hbad "Unexpected token b in JSON at position 1").
      * vm_compute. reflexivity.
      * intros Hends. apply endsWith_spec in Hends. vm_compute in Hends. discriminate.
  - destruct (inputs_decoded_before_any_call json_world 30) as [_ Hgood].
    + vm_compute. discriminate.
    + destruct (Hgood (JObject [("x", JNumber 1 0)])) as [_ Hrequest].
      * vm_compute. reflexivity.
      * apply (Hrequest sample_workflows (Workflow.mk 12 "deploy.yml" "tools/deploy")).
        -- exists tt. reflexivity.
        -- reflexivity.
        -- vm_compute. reflexivity.
Defined.

(** ** The repository input *)

(** C10. When the [repo] input is supplied without a [/], input resolution
    raises nothing: the whole string is the owner and the repo is undefined.
    When the inputs decode and the client is granted, the invocation goes on
    to the workflow listing, its first call, with these two values. *)
Theorem repo_without_slash_is_owner_only (w : World) (fuel : nat) :
  getInput w "repo" <> "" ->
  ~ In "/"%char (list_ascii_of_string (getInput w "repo")) ->
  resolve_owner_repo w = (Some (getInput w "repo"), None) /\
  ((exists inputs,
      decode_inputs w (getInput w "inputs") (entered w) = (Normal inputs, entered w)) ->
   (exists client, getOctokit w (getInput w "token") = Returns client) ->
   exists rest,
     network_calls (snd (run w fuel initial))
     = EListRepoWorkflows (Some (getInput w "repo")) None :: rest).
Proof.
  intros Hpresent Hslash.
  assert (Hresolve : resolve_owner_repo w = (Some (getInput w "repo"), None)).
  { unfold resolve_owner_repo.
    rewrite (truthy_nonempty _ Hpresent), (split_without_separator _ _ Hslash).
    reflexivity. }
  split; [exact Hresolve|]. intros [inputs Hdecode] [client Hclient].
  destruct (run_trace w fuel) as [dispatching [waiting [verdict [Hd [Hrun _]]]]].
  pose proof (dispatch_phase_trace w (entered w)) as Hphase.
  rewrite Hdecode, Hclient, Hresolve in Hphase.
  destruct Hphase as [more [Htrace _]].
  rewrite Hd in Htrace. cbn in Htrace. injection Htrace as ->.
  unfold network_calls. rewrite Hrun. cbn. eexists. reflexivity.
Qed.

Lemma repo_without_slash_is_owner_only_witness :
  resolve_owner_repo owner_only_world = (Some "octo", None) /\
  exists rest,
    network_calls (snd (run owner_only_world 30 initial))
    = EListRepoWorkflows (Some "octo") None :: rest.
Proof.
  destruct (repo_without_slash_is_owner_only owner_only_world 30) as [Hresolve Hcalls].
  - vm_compute. discriminate.
  - vm_compute. intros [H|[H|[H|[H|[]]]]]; discriminate.
  - split; [exact Hresolve|]. apply Hcalls.
    + exists (JObject []). reflexivity.
    + exists tt. reflexivity.
Defined.

(** ** The branch of the run listing *)

(** Every run listing of the correlator asks for one run per page, for the
    resolved workflow, on the branch computed from the reference. *)
Lemma correlator_listing_arguments (w : World) (fuel : nat) (owner repo : option string)
  (workflow_id : Z) (ref : string) :
  appends (lists_latest_run owner repo workflow_id ref)
    (correlate w fuel owner repo workflow_id ref).
Proof. apply appends_correlate; cbn; auto. Qed.

(** A leading [refs/heads/] is stripped. *)
Lemma branch_of_leading (name : string) : branch_of ("refs/heads/" ++ name) = name.
Proof. apply replace_leading. Qed.

(** A reference in which [refs/heads/] does not occur is left unchanged. *)
Lemma branch_of_absent (ref : string) :
  (forall k, String.prefix "refs/heads/" (Js.drop k ref) = false) -> branch_of ref = ref.
Proof. apply replace_absent. Qed.

(** C8 (the code at the failing input).  The reference
    [release/refs/heads/v1] does not start with [refs/heads/], and yet the
    run listings of the correlator ask for the branch [release/v1]: the
    first occurrence of [refs/heads/] is removed wherever it is. *)
Theorem branch_of_removes_inner_occurrence :
  resolve_ref inner_ref_world = "release/refs/heads/v1" /\
  Js.startsWith (resolve_ref inner_ref_world) "refs/heads/" = false /\
  branch_of (resolve_ref inner_ref_world) = "release/v1" /\
  In (EListWorkflowRuns (Some "octo") (Some "demo") 12 "release/v1" 1)
    (trace (snd (run inner_ref_world 30 initial))) /\
  ~ In (EListWorkflowRuns (Some "octo") (Some "demo") 12 "release/refs/heads/v1" 1)
      (trace (snd (run inner_ref_world 30 initial))).
Proof.
  repeat split; try (vm_compute; reflexivity).
  - vm_compute. tauto.
  - vm_compute. intuition discriminate.
Qed.


(** * Further properties of the action *)

(** ** The correlator: bounds, first eligible run, errors *)

Lemma slept_in_app (a b : list Event) : slept_in (a ++ b) = slept_in a + slept_in b.
Proof.
  induction a as [|e a IH]; cbn; [reflexivity|]. fold (slept_in (a ++ b)).
  fold (slept_in a). lia.
Qed.

Lemma slept_in_stale_attempts (owner repo : option string) (workflow_id : Z)
  (ref : string) (n : nat) :
  slept_in (concat (repeat (stale_attempt owner repo workflow_id ref) n))
  = 2000 * Z.of_nat n.
Proof.
  induction n as [|n IH]; [reflexivity|].
  cbn [repeat concat]. rewrite slept_in_app, IH, Nat2Z.inj_succ.
  unfold stale_attempt, slept_in. cbn [fold_right sleep_of]. lia.
Qed.

Lemma run_listings_of_stale_attempts (owner repo : option string) (workflow_id : Z)
  (ref : string) (n : nat) :
  length (filter is_run_listing
            (concat (repeat (stale_attempt owner repo workflow_id ref) n))) = n.
Proof. induction n as [|n IH]; [reflexivity|]. cbn. now rewrite IH. Qed.

Section CorrelatorBounds.

Variable w : World.
Variables owner repo : option string.
Variable workflow_id : Z.
Variable ref : string.

(** From any loop state, whatever the fuel and however the loop completes, it
    makes no more listings than it has attempts left, and sleeps no more than
    two seconds for each of them. *)
Lemma correlator_loop_bounded :
  forall (fuel : nat) (x : option Run.t * Z) (s : State),
    0 <= snd x ->
    exists added,
      trace (snd (while fuel correlator_cond
                    (correlator_body w owner repo workflow_id ref) x s))
      = (trace s ++ added)%list /\
      (length (filter is_run_listing added) <= attempts_left x)%nat /\
      slept_in added <= 2000 * Z.of_nat (attempts_left x).
Proof.
  induction fuel as [|fuel IH]; intros [workflowRun attempts] s Hpos;
    cbn [snd] in Hpos; rewrite while_unfold; unfold attempts_left;
    destruct (correlator_cond (workflowRun, attempts)) eqn:Hcond;
    try (exists []; rewrite app_nil_r; split;
         [ reflexivity
         | split; [apply Nat.le_0_l | apply Z.mul_nonneg_nonneg; lia] ]).
  assert (Hlt : attempts < 30).
  { unfold correlator_cond, maxAttempts in Hcond. cbn [fst snd] in Hcond.
    apply andb_prop in Hcond as [_ H]. now apply Z.ltb_lt in H. }
  assert (Hleft : Z.to_nat (maxAttempts - attempts)
                  = S (Z.to_nat (maxAttempts - (attempts + 1)))).
  { unfold maxAttempts. lia. }
  cbn [snd]. rewrite Hleft, bind_eq, correlator_body_eq. cbv zeta. cbn [fst snd].
  destruct (listWorkflowRuns w _ _ _ _ _ _) as [[|latestRun rest]|message].
  - match goal with
    | |- context [while fuel _ _ ?x' ?st] =>
        destruct (IH x' st) as [added [Htrace [Hcount Hslept]]]; [cbn; lia|]
    end.
    exists ([EListWorkflowRuns owner repo workflow_id (branch_of ref) 1; ESleep 2000]
              ++ added)%list.
    rewrite Htrace. cbn [trace record count_listRuns]. rewrite <- !app_assoc.
    split; [reflexivity|]. unfold attempts_left in Hcount, Hslept.
    cbn [snd] in Hcount, Hslept.
    destruct (correlator_cond (workflowRun, attempts + 1));
      (split;
       [ cbn [app filter is_run_listing length]; lia
       | rewrite slept_in_app; cbn [slept_in fold_right sleep_of]; lia ]).
  - destruct (created_recently w latestRun _).
    + rewrite while_unfold.
      change (correlator_cond (Some latestRun, attempts)) with false.
      cbv iota. rewrite ret_eq.
      eexists [_; _]. cbn [snd trace record count_listRuns count_now].
      rewrite <- !app_assoc. split; [reflexivity|].
      split; [cbn [app filter is_run_listing length]; lia
             | cbn [app slept_in fold_right sleep_of]; lia].
    + match goal with
      | |- context [while fuel _ _ ?x' ?st] =>
          destruct (IH x' st) as [added [Htrace [Hcount Hslept]]]; [cbn; lia|]
      end.
      exists ([EListWorkflowRuns owner repo workflow_id (branch_of ref) 1; ESleep 2000]
                ++ added)%list.
      rewrite Htrace. cbn [trace record count_listRuns count_now].
      rewrite <- !app_assoc.
      split; [reflexivity|]. unfold attempts_left in Hcount, Hslept.
      cbn [snd] in Hcount, Hslept.
      destruct (correlator_cond (workflowRun, attempts + 1));
        (split;
         [ cbn [app filter is_run_listing length]; lia
         | rewrite slept_in_app; cbn [slept_in fold_right sleep_of]; lia ]).
  - eexists [_]. cbn [snd trace record count_listRuns]. split; [reflexivity|].
    split; [cbn [filter is_run_listing length]; lia
           | cbn [slept_in fold_right sleep_of]; lia].
Qed.

End CorrelatorBounds.

(** X1. However it completes, the correlator makes at most thirty run
    listings and sleeps at most sixty seconds in all; allowed thirty
    iterations it always comes to an end, with a run or with an error. *)
Theorem correlator_waits_at_most_a_minute
  (w : World) (fuel : nat) (owner repo : option string) (workflow_id : Z) (ref : string)
  (s : State) :
  (exists added,
     trace (snd (correlate w fuel owner repo workflow_id ref s))
     = (trace s ++ added)%list /\
     (length (filter is_run_listing added) <= 30)%nat /\
     slept_in added <= 60000) /\
  ((30 <= fuel)%nat -> fst (correlate w fuel owner repo workflow_id ref s) <> Pending).
Proof.
  split; [|apply correlate_terminates].
  destruct (correlator_loop_bounded w owner repo workflow_id ref fuel (None, 0) s)
    as [added [Htrace [Hcount Hslept]]]; [cbn; lia|].
  exists added. change (attempts_left (None, 0)) with 30%nat in *.
  split; [|split; [exact Hcount | lia]].
  rewrite correlate_eq.
  destruct (while _ _ _ _ _) as [[[[?|] ?]| |] ?]; exact Htrace.
Qed.

Lemma correlator_waits_at_most_a_minute_witness :
  fst (correlate timeout_world 30 (Some "octo") (Some "demo") 12 "refs/heads/main" initial)
  <> Pending.
Proof.
  apply (correlator_waits_at_most_a_minute timeout_world 30 (Some "octo") (Some "demo")
           12 "refs/heads/main" initial).
  lia.
Defined.

Section CorrelatorPaths.

Variable w : World.
Variables owner repo : option string.
Variable workflow_id : Z.
Variable ref : string.

(** [n] unsuccessful attempts below the cap: the loop goes on from the state
    they leave. *)
Lemma correlator_loop_stale :
  forall (n : nat) (attempts : Z) (fuel : nat) (s : State),
    0 <= attempts -> attempts + Z.of_nat n <= maxAttempts ->
    no_eligible_run w owner repo workflow_id ref n (listRuns_calls s) (now_calls s)
    = true ->
    exists s_n,
      while (n + fuel) correlator_cond (correlator_body w owner repo workflow_id ref)
        (None, attempts) s
      = while fuel correlator_cond (correlator_body w owner repo workflow_id ref)
          (None, attempts + Z.of_nat n) s_n /\
      trace s_n =
        (trace s ++ concat (repeat (stale_attempt owner repo workflow_id ref) n))%list /\
      listRuns_calls s_n = (listRuns_calls s + n)%nat /\
      now_calls s_n =
        (now_calls s
         + clock_readings w owner repo workflow_id ref n (listRuns_calls s))%nat /\
      getRun_calls s_n = getRun_calls s.
Proof.
  unfold maxAttempts.
  induction n as [|n IH]; intros attempts fuel s Hpos Hsum Hstale.
  - exists s. cbn [plus Z.of_nat repeat concat clock_readings].
    rewrite Z.add_0_r, app_nil_r, !Nat.add_0_r. repeat split.
  - cbn [plus]. rewrite while_unfold.
    assert (Hc : correlator_cond (None, attempts) = true).
    { unfold correlator_cond, maxAttempts; cbn [fst snd is_null andb].
      apply Z.ltb_lt. lia. }
    rewrite Hc, bind_eq, correlator_body_eq. cbv zeta.
    cbn [no_eligible_run] in Hstale. cbn [clock_readings].
    destruct (listWorkflowRuns w _ _ _ _ _ _) as [[|latestRun rest]|message];
      [| apply andb_prop in Hstale as [Hold Hstale];
         apply negb_true_iff in Hold; rewrite Hold
       | discriminate];
      cbn [fst snd];
      match goal with
      | |- context [while (n + fuel) _ _ _ ?st] =>
          destruct (IH (attempts + 1) fuel st) as [s_n [Hw [Ht [Hl [Hn Hg]]]]];
            [lia | lia | exact Hstale |]
      end;
      (exists s_n; rewrite Hw;
       replace (attempts + 1 + Z.of_nat n) with (attempts + Z.of_nat (S n)) by lia;
       split; [reflexivity|];
       split; [rewrite Ht; cbn; rewrite <- !app_assoc; reflexivity|];
       split; [rewrite Hl; cbn; lia|];
       split; [rewrite Hn; cbn; lia | rewrite Hg; reflexivity]).
Qed.

End CorrelatorPaths.

(** After [n] unsuccessful attempts below the cap, a listing headed by a run
    that passes the recency test ends the correlation. *)
Lemma correlate_accepts_after_stale_attempts
  (w : World) (fuel : nat) (owner repo : option string) (workflow_id : Z) (ref : string)
  (s : State) (n : nat) (latestRun : Run.t) (rest : list Run.t) :
  (n < 30)%nat -> (n < fuel)%nat ->
  no_eligible_run w owner repo workflow_id ref n (listRuns_calls s) (now_calls s) = true ->
  listWorkflowRuns w (listRuns_calls s + n) owner repo workflow_id (branch_of ref) 1
  = Returns (latestRun :: rest) ->
  created_recently w latestRun
    (Date_now w (now_calls s
                 + clock_readings w owner repo workflow_id ref n (listRuns_calls s)))
  = true ->
  exists s',
    correlate w fuel owner repo workflow_id ref s = (Normal latestRun, s') /\
    trace s' =
      (trace s
         ++ concat (repeat (stale_attempt owner repo workflow_id ref) n)
         ++ [ EListWorkflowRuns owner repo workflow_id (branch_of ref) 1;
              EConsoleLog ("📋 Workflow run started with ID: "
                             ++ Js.Number_toString (Run.id latestRun)) ])%list /\
    listRuns_calls s' = (listRuns_calls s + S n)%nat /\
    getRun_calls s' = getRun_calls s.
Proof.
  intros Hn Hfuel Hstale Hlist Hrecent.
  destruct (correlator_loop_stale w owner repo workflow_id ref n 0 (fuel - n) s)
    as [s_n [Hw [Ht [Hl [Hc Hg]]]]]; [lia | unfold maxAttempts; lia | exact Hstale |].
  replace (n + (fuel - n))%nat with fuel in Hw by lia.
  rewrite correlate_eq, Hw, while_unfold.
  assert (Hcond : correlator_cond (None, 0 + Z.of_nat n) = true).
  { unfold correlator_cond, maxAttempts; cbn [fst snd is_null andb].
    apply Z.ltb_lt. lia. }
  rewrite Hcond. destruct (fuel - n)%nat as [|fuel'] eqn:Hleft; [lia|].
  rewrite bind_eq, correlator_body_eq. cbv zeta.
  rewrite Hl, Hlist, Hc, Hrecent, while_unfold.
  change (correlator_cond (Some latestRun, snd (@None Run.t, 0 + Z.of_nat n))) with false.
  cbv iota. rewrite ret_eq. eexists; split; [reflexivity|].
  cbn [trace record count_listRuns count_now listRuns_calls getRun_calls].
  rewrite Ht, Hl, Hg, <- !app_assoc. repeat split. lia.
Qed.

(** X2. After [n] unsuccessful attempts, [n] below thirty, let the next
    listing be headed by a run that passes the recency test at the time then
    read.  The correlator returns that run at once: it has made [n + 1]
    listings, slept two seconds after each of the first [n] only, logged the
    id of the run, and fetched nothing. *)
Theorem correlate_returns_first_eligible_run
  (w : World) (fuel : nat) (owner repo : option string) (workflow_id : Z) (ref : string)
  (s : State) (n : nat) (latestRun : Run.t) (rest : list Run.t) :
  (n < 30)%nat -> (n < fuel)%nat ->
  no_eligible_run w owner repo workflow_id ref n (listRuns_calls s) (now_calls s) = true ->
  listWorkflowRuns w (listRuns_calls s + n) owner repo workflow_id (branch_of ref) 1
  = Returns (latestRun :: rest) ->
  created_recently w latestRun
    (Date_now w (now_calls s
                 + clock_readings w owner repo workflow_id ref n (listRuns_calls s)))
  = true ->
  exists s',
    correlate w fuel owner repo workflow_id ref s = (Normal latestRun, s') /\
    trace s' =
      (trace s
         ++ concat (repeat (stale_attempt owner repo workflow_id ref) n)
         ++ [ EListWorkflowRuns owner repo workflow_id (branch_of ref) 1;
              EConsoleLog ("📋 Workflow run started with ID: "
                             ++ Js.Number_toString (Run.id latestRun)) ])%list /\
    listRuns_calls s' = (listRuns_calls s + S n)%nat /\
    getRun_calls s' = getRun_calls s /\
    slept_in (trace s') = slept_in (trace s) + 2000 * Z.of_nat n.
Proof.
  intros Hn Hfuel Hstale Hlist Hrecent.
  destruct (correlate_accepts_after_stale_attempts w fuel owner repo workflow_id ref s n
              latestRun rest Hn Hfuel Hstale Hlist Hrecent)
    as [s' [Hcorrelate [Htrace [Hl Hg]]]].
  exists s'. repeat split; try assumption.
  rewrite Htrace, !slept_in_app, slept_in_stale_attempts.
  cbn [slept_in fold_right sleep_of]. lia.
Qed.

Lemma correlate_returns_first_eligible_run_witness :
  exists s',
    correlate usual_world 30 (Some "octo") (Some "demo") 12 "refs/heads/main" initial
    = (Normal (fresh_run "queued" None), s') /\
    trace s' =
      (trace initial
         ++ concat (repeat (stale_attempt (Some "octo") (Some "demo") 12
                              "refs/heads/main") 2)
         ++ [ EListWorkflowRuns (Some "octo") (Some "demo") 12
                (branch_of "refs/heads/main") 1;
              EConsoleLog ("📋 Workflow run started with ID: "
                             ++ Js.Number_toString (Run.id (fresh_run "queued" None))) ])%list
    /\
    listRuns_calls s' = (listRuns_calls initial + 3)%nat /\
    getRun_calls s' = getRun_calls initial /\
    slept_in (trace s') = slept_in (trace initial) + 2000 * Z.of_nat 2.
Proof.
  apply (correlate_returns_first_eligible_run usual_world 30 (Some "octo") (Some "demo")
           12 "refs/heads/main" initial 2 (fresh_run "queued" None) []).
  - lia.
  - lia.
  - vm_compute. reflexivity.
  - reflexivity.
  - vm_compute. reflexivity.
Defined.

(** X3. After [n] unsuccessful attempts, [n] below thirty, let the next
    listing fail.  The correlator throws that error at once: the failed
    listing is not tried again, and no sleep follows it. *)
Theorem correlate_does_not_retry_a_failed_listing
  (w : World) (fuel : nat) (owner repo : option string) (workflow_id : Z) (ref : string)
  (s : State) (n : nat) (message : string) :
  (n < 30)%nat -> (n < fuel)%nat ->
  no_eligible_run w owner repo workflow_id ref n (listRuns_calls s) (now_calls s) = true ->
  listWorkflowRuns w (listRuns_calls s + n) owner repo workflow_id (branch_of ref) 1
  = Throws message ->
  exists s',
    correlate w fuel owner repo workflow_id ref s = (Thrown message, s') /\
    trace s' =
      (trace s
         ++ concat (repeat (stale_attempt owner repo workflow_id ref) n)
         ++ [EListWorkflowRuns owner repo workflow_id (branch_of ref) 1])%list /\
    listRuns_calls s' = (listRuns_calls s + S n)%nat.
Proof.
  intros Hn Hfuel Hstale Hlist.
  destruct (correlator_loop_stale w owner repo workflow_id ref n 0 (fuel - n) s)
    as [s_n [Hw [Ht [Hl [Hc Hg]]]]]; [lia | unfold maxAttempts; lia | exact Hstale |].
  replace (n + (fuel - n))%nat with fuel in Hw by lia.
  rewrite correlate_eq, Hw, while_unfold.
  assert (Hcond : correlator_cond (None, 0 + Z.of_nat n) = true).
  { unfold correlator_cond, maxAttempts; cbn [fst snd is_null andb].
    apply Z.ltb_lt. lia. }
  rewrite Hcond. destruct (fuel - n)%nat as [|fuel'] eqn:Hleft; [lia|].
  rewrite bind_eq, correlator_body_eq. cbv zeta.
  rewrite Hl, Hlist. eexists; split; [reflexivity|].
  cbn [trace record count_listRuns listRuns_calls].
  rewrite Ht, Hl, <- !app_assoc. repeat split. lia.
Qed.

Lemma correlate_does_not_retry_a_failed_listing_witness :
  exists s',
    correlate listing_breaks_world 30 (Some "octo") (Some "demo") 12 "refs/heads/main"
      initial = (Thrown "Server Error", s') /\
    trace s' =
      (trace initial
         ++ concat (repeat (stale_attempt (Some "octo") (Some "demo") 12
                              "refs/heads/main") 2)
         ++ [EListWorkflowRuns (Some "octo") (Some "demo") 12
               (branch_of "refs/heads/main") 1])%list /\
    listRuns_calls s' = (listRuns_calls initial + 3)%nat.
Proof.
  apply (correlate_does_not_retry_a_failed_listing listing_breaks_world 30 (Some "octo")
           (Some "demo") 12 "refs/heads/main" initial 2 "Server Error").
  - lia.
  - lia.
  - vm_compute. reflexivity.
  - reflexivity.
Defined.

(** ** The poller: pacing and errors *)

Lemma slept_in_pending_fetches (owner repo : option string) (run_id : Z) (n : nat) :
  slept_in (concat (repeat (pending_fetch owner repo run_id) n)) = 5000 * Z.of_nat n.
Proof.
  induction n as [|n IH]; [reflexivity|].
  cbn [repeat concat]. rewrite slept_in_app, IH, Nat2Z.inj_succ.
  unfold pending_fetch, slept_in. cbn [fold_right sleep_of]. lia.
Qed.

(** [n] fetches that find the run not completed, then one that fails: the
    poll throws the error of that fetch. *)
Lemma poll_throws (w : World) (owner repo : option string) :
  forall (n : nat) (workflowRun : Run.t) (message : string) (s : State) (fuel : nat),
    not_completed workflowRun = true ->
    (forall k, (k < n)%nat ->
       exists snapshot,
         getWorkflowRun w (getRun_calls s + k) owner repo (Run.id workflowRun)
         = Returns snapshot /\
         not_completed snapshot = true /\
         Run.id snapshot = Run.id workflowRun) ->
    getWorkflowRun w (getRun_calls s + n) owner repo (Run.id workflowRun)
    = Throws message ->
    (n < fuel)%nat ->
    exists s',
      poll w fuel owner repo workflowRun s = (Thrown message, s') /\
      trace s' =
        (trace s
           ++ concat (repeat (pending_fetch owner repo (Run.id workflowRun)) n)
           ++ [EGetWorkflowRun owner repo (Run.id workflowRun)])%list.
Proof.
  unfold poll.
  induction n as [|n IH]; intros workflowRun message s fuel Hrun Hpending Hfail Hfuel;
    (destruct fuel as [|fuel]; [lia|]);
    rewrite while_unfold, Hrun, bind_eq, poller_body_eq; cbv zeta.
  - rewrite Nat.add_0_r in Hfail. rewrite Hfail.
    eexists; split; reflexivity.
  - destruct (Hpending 0%nat) as [snapshot [Hget [Hnot Hid]]]; [lia|].
    rewrite Nat.add_0_r in Hget. rewrite Hget, Hnot.
    match goal with
    | |- context [while fuel _ _ snapshot ?st] =>
        destruct (IH snapshot message st fuel) as [s' [Hpoll Htrace]];
          [exact Hnot | | | lia | ]
    end.
    + intros k Hk. destruct (Hpending (S k)) as [r [Hr [Hrn Hrid]]]; [lia|].
      exists r. rewrite Hid. cbn [getRun_calls record count_getRun].
      replace (S (getRun_calls s) + k)%nat with (getRun_calls s + S k)%nat by lia.
      repeat split; assumption.
    + rewrite Hid. cbn [getRun_calls record count_getRun].
      replace (S (getRun_calls s) + n)%nat with (getRun_calls s + S n)%nat by lia.
      exact Hfail.
    + exists s'. split; [exact Hpoll|].
      rewrite Htrace, Hid. cbn. rewrite <- !app_assoc. reflexivity.
Qed.

Lemma pending_snapshots (w : World) (owner repo : option string) (workflowRun : Run.t)
  (n : nat) (s s0 : State) :
  getRun_calls s = getRun_calls s0 ->
  (forall k, (k < n)%nat ->
     exists snapshot,
       getWorkflowRun w (getRun_calls s0 + k) owner repo (Run.id workflowRun)
       = Returns snapshot /\
       Run.status snapshot <> "completed" /\
       Run.id snapshot = Run.id workflowRun) ->
  forall k, (k < n)%nat ->
    exists snapshot,
      getWorkflowRun w (getRun_calls s + k) owner repo (Run.id workflowRun)
      = Returns snapshot /\
      not_completed snapshot = true /\
      Run.id snapshot = Run.id workflowRun.
Proof.
  intros Hcalls Hpending k Hk. rewrite Hcalls.
  destruct (Hpending k Hk) as [snapshot [H1 [H2 H3]]].
  exists snapshot. repeat split; auto using not_completed_true.
Qed.

(** X4. Let the poller start from a run that is not completed, let the first
    [n] fetches find it not completed, and let the next fetch fail.  The
    completion phase throws that error after these [n + 1] fetches, without
    trying again, and sets no output. *)
Theorem poller_does_not_retry_a_failed_fetch
  (w : World) (fuel : nat) (owner repo : option string) (workflowRun : Run.t) (n : nat)
  (message : string) (s : State) :
  Run.status workflowRun <> "completed" ->
  (forall k, (k < n)%nat ->
     exists snapshot,
       getWorkflowRun w (getRun_calls s + k) owner repo (Run.id workflowRun)
       = Returns snapshot /\
       Run.status snapshot <> "completed" /\
       Run.id snapshot = Run.id workflowRun) ->
  getWorkflowRun w (getRun_calls s + n) owner repo (Run.id workflowRun) = Throws message ->
  (n < fuel)%nat ->
  exists s',
    completion_phase w fuel owner repo workflowRun s = (Thrown message, s') /\
    fetched_ids s' = (fetched_ids s ++ repeat (Run.id workflowRun) (S n))%list /\
    outputs s' = outputs s.
Proof.
  intros Hrun Hpending Hfail Hfuel. apply not_completed_true in Hrun.
  rewrite completion_phase_eq.
  destruct (poll_throws w owner repo n workflowRun message
              (record (EConsoleLog "⏳ Waiting for workflow run to complete...") s)
              fuel Hrun (pending_snapshots w owner repo workflowRun n _ s eq_refl Hpending)
              Hfail Hfuel) as [s' [Hpoll Htrace]].
  rewrite Hpoll. exists s'. split; [reflexivity|]. split.
  - unfold fetched_ids. rewrite Htrace. cbn [trace record].
    rewrite !flat_map_app, fetches_of_pending. cbn [flat_map fetch_of app].
    rewrite app_nil_r, <- repeat_cons. reflexivity.
  - unfold outputs, outputs_in. rewrite Htrace. cbn [trace record].
    rewrite !flat_map_app, outputs_of_pending. cbn [flat_map output_of app].
    now rewrite !app_nil_r.
Qed.

Lemma poller_does_not_retry_a_failed_fetch_witness :
  exists s',
    completion_phase fetch_breaks_world 30 (Some "octo") (Some "demo")
      (fresh_run "queued" None) initial = (Thrown "Server Error", s') /\
    fetched_ids s' = [501; 501] /\
    outputs s' = [].
Proof.
  apply (poller_does_not_retry_a_failed_fetch fetch_breaks_world 30 (Some "octo")
           (Some "demo") (fresh_run "queued" None) 1 "Server Error" initial).
  - simpl. discriminate.
  - intros k Hk. exists (Run.mk 501 "in_progress" None "2023-11-14T22:13:20Z").
    destruct k as [|k]; [|lia]. simpl. repeat split. discriminate.
  - reflexivity.
  - lia.
Defined.

(** X5. Under the same answers as for a poll that comes to an end ([n]
    snapshots not completed, then a completed one), the completion phase adds
    to the trace, after its log line, a sleep of five seconds after each of
    the [n] first fetches and none after the last, then the three outputs
    and the closing log line: it has slept [5 n] seconds in all. *)
Theorem poller_sleeps_between_fetches_only
  (w : World) (fuel : nat) (owner repo : option string) (workflowRun final : Run.t)
  (n : nat) (s : State) :
  Run.status workflowRun <> "completed" ->
  (forall k, (k < n)%nat ->
     exists snapshot,
       getWorkflowRun w (getRun_calls s + k) owner repo (Run.id workflowRun)
       = Returns snapshot /\
       Run.status snapshot <> "completed" /\
       Run.id snapshot = Run.id workflowRun) ->
  getWorkflowRun w (getRun_calls s + n) owner repo (Run.id workflowRun) = Returns final ->
  Run.status final = "completed" ->
  (n < fuel)%nat ->
  exists added,
    trace (snd (completion_phase w fuel owner repo workflowRun s))
    = (trace s ++ added)%list /\
    added =
      (EConsoleLog "⏳ Waiting for workflow run to complete..."
         :: concat (repeat (pending_fetch owner repo (Run.id workflowRun)) n)
         ++ [ EGetWorkflowRun owner repo (Run.id workflowRun);
              ESetOutput "workflow_run_id" (VNumber (Run.id final));
              ESetOutput "workflow_run_status" (VString "completed");
              ESetOutput "workflow_run_conclusion" (conclusion_value final);
              EConsoleLog ("✨ Workflow run completed with conclusion: "
                             ++ Js.interpolate_nullable (Run.conclusion final)) ])%list /\
    slept_in added = 5000 * Z.of_nat n.
Proof.
  intros Hrun Hpending Hfinal Hdone Hfuel. apply not_completed_true in Hrun.
  pose proof (not_completed_false _ Hdone) as Hdone'.
  rewrite completion_phase_eq.
  destruct (poll_stops w owner repo n workflowRun final
              (record (EConsoleLog "⏳ Waiting for workflow run to complete...") s)
              fuel Hrun (pending_snapshots w owner repo workflowRun n _ s eq_refl Hpending)
              Hfinal Hdone' Hfuel) as [s' [Hpoll [Htrace _]]].
  rewrite Hpoll. eexists. split; [|split; [reflexivity|]].
  - cbn [snd trace record]. rewrite Htrace, Hdone. cbn [trace record].
    rewrite <- !app_assoc. reflexivity.
  - change (slept_in (?e :: ?l)) with (sleep_of e + slept_in l).
    rewrite slept_in_app, slept_in_pending_fetches. cbn [sleep_of slept_in fold_right].
    lia.
Qed.

Lemma poller_sleeps_between_fetches_only_witness :
  exists added,
    trace (snd (completion_phase usual_world 30 (Some "octo") (Some "demo")
                  (fresh_run "queued" None) initial))
    = (trace initial ++ added)%list /\
    added =
      (EConsoleLog "⏳ Waiting for workflow run to complete..."
         :: concat (repeat (pending_fetch (Some "octo") (Some "demo") 501) 2)
         ++ [ EGetWorkflowRun (Some "octo") (Some "demo") 501;
              ESetOutput "workflow_run_id" (VNumber 501);
              ESetOutput "workflow_run_status" (VString "completed");
              ESetOutput "workflow_run_conclusion" (VString "success");
              EConsoleLog ("✨ Workflow run completed with conclusion: "
                             ++ Js.interpolate_nullable (Some "success")) ])%list /\
    slept_in added = 5000 * Z.of_nat 2.
Proof.
  apply (poller_sleeps_between_fetches_only usual_world 30 (Some "octo") (Some "demo")
           (fresh_run "queued" None)
           (Run.mk 501 "completed" (Some "success") "2023-11-14T22:13:20Z") 2 initial).
  - simpl. discriminate.
  - intros k Hk. exists (Run.mk 501 "in_progress" None "2023-11-14T22:13:20Z").
    destruct k as [|[|k]]; [| | lia]; simpl; (repeat split; [discriminate]).
  - reflexivity.
  - reflexivity.
  - lia.
Defined.

(** ** Failures before the run is awaited *)

Lemma run_when_dispatch_phase_throws (w : World) (fuel : nat) (message : string)
  (s1 : State) :
  dispatch_phase w (entered w) = (Thrown message, s1) ->
  run w fuel initial = (Normal tt, record (handler_event message) s1).
Proof. intros H. now rewrite run_eq, guarded_eq, H. Qed.

Lemma failures_handled (message : string) (s : State) :
  ~ (exists p, message = p ++ "a disabled workflow") ->
  failures (record (handler_event message) s) = (failures s ++ [message])%list /\
  warnings (record (handler_event message) s) = warnings s.
Proof.
  intros Hends. rewrite failures_record, warnings_record. unfold handler_event.
  destruct (Js.endsWith message _) eqn:E.
  - elim Hends. now apply endsWith_spec.
  - split; [reflexivity | apply app_nil_r].
Qed.

Lemma warnings_handled (message : string) (s : State) :
  (exists p, message = p ++ "a disabled workflow") ->
  failures (record (handler_event message) s) = failures s /\
  warnings (record (handler_event message) s)
  = (warnings s ++ ["Workflow is disabled, no action was taken"])%list.
Proof.
  intros Hends. apply endsWith_spec in Hends.
  rewrite failures_record, warnings_record. unfold handler_event. rewrite Hends.
  split; [apply app_nil_r | reflexivity].
Qed.

(** Two strings with the same end have the same last character. *)
Lemma last_character (a b : string) (c d : ascii) :
  a ++ String c "" = b ++ String d "" -> c = d.
Proof.
  revert b. induction a as [|x a IH]; intros [|y b] H; cbn in H.
  - now injection H.
  - injection H as _ H. now destruct b.
  - injection H as _ H. now destruct a.
  - injection H as _ H. exact (IH _ H).
Qed.

(** The message of a missing workflow is never taken for that of a disabled
    one. *)
Lemma not_found_message_is_fatal (workflowRef : string) (owner repo : option string) :
  ~ (exists p, not_found_message workflowRef owner repo = p ++ "a disabled workflow").
Proof.
  intros [p H]. unfold not_found_message in H.
  change " 😥" with (substring 0 4 " 😥" ++ String (ascii_of_nat 165) "") in H.
  change "a disabled workflow" with ("a disabled workflo" ++ String "w" "") in H.
  rewrite <- !append_assoc in H. apply last_character in H. discriminate.
Qed.

(** X6. When the inputs decode and the client is refused (as it is for an
    empty token), nothing is sent to the platform and no output is set; the
    invocation is failed with the message of the refusal, unless that message
    ends with [a disabled workflow]. *)
Theorem refused_client_sends_nothing
  (w : World) (fuel : nat) (inputs : Json) (message : string) :
  decode_inputs w (getInput w "inputs") (entered w) = (Normal inputs, entered w) ->
  getOctokit w (getInput w "token") = Throws message ->
  run w fuel initial = (Normal tt, record (handler_event message) (entered w)) /\
  network_calls (snd (run w fuel initial)) = [] /\
  outputs (snd (run w fuel initial)) = [] /\
  (~ (exists p, message = p ++ "a disabled workflow") ->
   failures (snd (run w fuel initial)) = [message]).
Proof.
  intros Hdecode Hclient.
  assert (Hrun : run w fuel initial
                 = (Normal tt, record (handler_event message) (entered w))).
  { apply run_when_dispatch_phase_throws.
    rewrite dispatch_phase_eq. cbv zeta. now rewrite Hdecode, Hclient. }
  rewrite Hrun. cbn [snd]. split; [reflexivity|].
  split; [now rewrite network_calls_handled|].
  split; [now rewrite outputs_handled|].
  intros Hends. now apply failures_handled.
Qed.

Lemma refused_client_sends_nothing_witness :
  network_calls (snd (run no_client_world 30 initial)) = [] /\
  outputs (snd (run no_client_world 30 initial)) = [] /\
  failures (snd (run no_client_world 30 initial))
  = ["Parameter token or opts.auth is required"].
Proof.
  destruct (refused_client_sends_nothing no_client_world 30 (JObject [])
              "Parameter token or opts.auth is required")
    as [_ [Hcalls [Houtputs Hfailed]]].
  - reflexivity.
  - reflexivity.
  - split; [exact Hcalls|]. split; [exact Houtputs|]. apply Hfailed.
    intros Hends. apply endsWith_spec in Hends. vm_compute in Hends. discriminate.
Defined.

(** X7. When the workflow listing fails, it is the only call sent to the
    platform: nothing is dispatched and no output is set; the invocation is
    failed with the message of that error, unless it ends with
    [a disabled workflow]. *)
Theorem failed_workflow_listing_dispatches_nothing
  (w : World) (fuel : nat) (inputs : Json) (client : unit) (message : string) :
  decode_inputs w (getInput w "inputs") (entered w) = (Normal inputs, entered w) ->
  getOctokit w (getInput w "token") = Returns client ->
  listRepoWorkflows w (fst (resolve_owner_repo w)) (snd (resolve_owner_repo w))
  = Throws message ->
  network_calls (snd (run w fuel initial))
  = [EListRepoWorkflows (fst (resolve_owner_repo w)) (snd (resolve_owner_repo w))] /\
  outputs (snd (run w fuel initial)) = [] /\
  (~ (exists p, message = p ++ "a disabled workflow") ->
   failures (snd (run w fuel initial)) = [message]).
Proof.
  intros Hdecode Hclient Hlist.
  rewrite (run_when_dispatch_phase_throws w fuel message
             (record (EListRepoWorkflows (fst (resolve_owner_repo w))
                        (snd (resolve_owner_repo w))) (entered w))).
  - cbn [snd]. split; [now rewrite network_calls_handled|].
    split; [now rewrite outputs_handled|].
    intros Hends. now apply failures_handled.
  - rewrite dispatch_phase_eq. cbv zeta. now rewrite Hdecode, Hclient, Hlist.
Qed.

Lemma failed_workflow_listing_dispatches_nothing_witness :
  network_calls (snd (run unlisted_world 30 initial))
  = [EListRepoWorkflows (Some "octo") (Some "demo")] /\
  outputs (snd (run unlisted_world 30 initial)) = [] /\
  failures (snd (run unlisted_world 30 initial)) = ["Not Found"].
Proof.
  destruct (failed_workflow_listing_dispatches_nothing unlisted_world 30 (JObject []) tt
              "Not Found") as [Hcalls [Houtputs Hfailed]].
  - reflexivity.
  - reflexivity.
  - reflexivity.
  - split; [exact Hcalls|]. split; [exact Houtputs|]. apply Hfailed.
    intros Hends. apply endsWith_spec in Hends. vm_compute in Hends. discriminate.
Defined.

(** X8. When no listed workflow answers to the identifier, the invocation is
    always failed, with the message that names the identifier, the owner and
    the repo, and never let through with the warning of a disabled workflow;
    the workflow listing is the only call sent to the platform, and no output
    is set. *)
Theorem missing_workflow_fails_without_dispatch
  (w : World) (fuel : nat) (inputs : Json) (client : unit) (workflows : list Workflow.t) :
  decode_inputs w (getInput w "inputs") (entered w) = (Normal inputs, entered w) ->
  getOctokit w (getInput w "token") = Returns client ->
  listRepoWorkflows w (fst (resolve_owner_repo w)) (snd (resolve_owner_repo w))
  = Returns workflows ->
  (forall workflow, In workflow workflows -> ~ answers_to (getInput w "workflow") workflow) ->
  failures (snd (run w fuel initial))
  = [not_found_message (getInput w "workflow") (fst (resolve_owner_repo w))
       (snd (resolve_owner_repo w))] /\
  warnings (snd (run w fuel initial)) = [] /\
  network_calls (snd (run w fuel initial))
  = [EListRepoWorkflows (fst (resolve_owner_repo w)) (snd (resolve_owner_repo w))] /\
  outputs (snd (run w fuel initial)) = [].
Proof.
  intros Hdecode Hclient Hlist Hnone.
  assert (Hfind : find (matches (getInput w "workflow")) workflows = None).
  { destruct (find _ workflows) as [found|] eqn:Hfind; [|reflexivity].
    apply find_some in Hfind as [Hin Hm]. apply matches_spec in Hm.
    now elim (Hnone _ Hin). }
  erewrite run_when_dispatch_phase_throws;
    [| rewrite dispatch_phase_eq; cbv zeta;
       rewrite Hdecode, Hclient, Hlist, Hfind; reflexivity].
  cbn [snd].
  destruct (failures_handled _
              (record (EDebug "### END:  List Workflows response data")
                 (record (EDebug (JSON_stringify w workflows))
                    (record (EDebug "### START List Workflows response data")
                       (record (EListRepoWorkflows (fst (resolve_owner_repo w))
                                  (snd (resolve_owner_repo w))) (entered w)))))
              (not_found_message_is_fatal (getInput w "workflow")
                 (fst (resolve_owner_repo w)) (snd (resolve_owner_repo w))))
    as [Hf Hw].
  rewrite Hf, Hw, network_calls_handled, outputs_handled.
  rewrite !failures_record, !warnings_record, !network_calls_record, !outputs_record.
  repeat split.
Qed.

Lemma missing_workflow_fails_without_dispatch_witness :
  failures (snd (run unknown_workflow_world 30 initial))
  = [not_found_message "release.yml" (Some "octo") (Some "demo")] /\
  warnings (snd (run unknown_workflow_world 30 initial)) = [] /\
  network_calls (snd (run unknown_workflow_world 30 initial))
  = [EListRepoWorkflows (Some "octo") (Some "demo")] /\
  outputs (snd (run unknown_workflow_world 30 initial)) = [].
Proof.
  apply (missing_workflow_fails_without_dispatch unknown_workflow_world 30 (JObject []) tt
           sample_workflows).
  - reflexivity.
  - reflexivity.
  - reflexivity.
  - intros workflow Hin Hans. apply matches_spec in Hans.
    simpl in Hin. destruct Hin as [<-|[<-|[<-|[]]]]; vm_compute in Hans; discriminate.
Defined.

(** X9. When the workflow is found and the dispatch is refused, the listing
    and the dispatch are the only calls sent to the platform: no run is
    listed or fetched, and no output is set, not even [workflowId].  A
    refusal whose message ends with [a disabled workflow] gives a warning
    and no failure; any other gives a failure with its message. *)
Theorem refused_dispatch_awaits_no_run
  (w : World) (fuel : nat) (inputs : Json) (client : unit) (workflows : list Workflow.t)
  (foundWorkflow : Workflow.t) (message : string) :
  decode_inputs w (getInput w "inputs") (entered w) = (Normal inputs, entered w) ->
  getOctokit w (getInput w "token") = Returns client ->
  listRepoWorkflows w (fst (resolve_owner_repo w)) (snd (resolve_owner_repo w))
  = Returns workflows ->
  find (matches (getInput w "workflow")) workflows = Some foundWorkflow ->
  request_dispatch w
    (dispatch_route (fst (resolve_owner_repo w)) (snd (resolve_owner_repo w))
       (Workflow.id foundWorkflow))
    (resolve_ref w) inputs = Throws message ->
  network_calls (snd (run w fuel initial))
  = [ EListRepoWorkflows (fst (resolve_owner_repo w)) (snd (resolve_owner_repo w));
      ERequest
        (dispatch_route (fst (resolve_owner_repo w)) (snd (resolve_owner_repo w))
           (Workflow.id foundWorkflow))
        (resolve_ref w) inputs ] /\
  outputs (snd (run w fuel initial)) = [] /\
  ((exists p, message = p ++ "a disabled workflow") ->
   warnings (snd (run w fuel initial)) = ["Workflow is disabled, no action was taken"] /\
   failures (snd (run w fuel initial)) = []) /\
  (~ (exists p, message = p ++ "a disabled workflow") ->
   warnings (snd (run w fuel initial)) = [] /\
   failures (snd (run w fuel initial)) = [message]).
Proof.
  intros Hdecode Hclient Hlist Hfind Hdispatch.
  erewrite run_when_dispatch_phase_throws;
    [| rewrite dispatch_phase_eq; cbv zeta;
       rewrite Hdecode, Hclient, Hlist, Hfind, Hdispatch; reflexivity].
  cbn [snd]. rewrite network_calls_handled, outputs_handled.
  split; [rewrite !network_calls_record; reflexivity|].
  split; [rewrite !outputs_record; reflexivity|].
  match goal with
  | |- context [record (handler_event message) ?st] =>
      assert (Hquiet : failures st = [] /\ warnings st = [])
        by (rewrite !failures_record, !warnings_record; split; reflexivity);
      destruct Hquiet as [Hf0 Hw0];
      split; intros Hends;
        [ destruct (warnings_handled message st Hends) as [Hf Hw]
        | destruct (failures_handled message st Hends) as [Hf Hw] ];
        rewrite Hf, Hw, Hf0, Hw0; split; reflexivity
  end.
Qed.

Lemma refused_dispatch_awaits_no_run_witness :
  network_calls (snd (run disabled_world 30 initial))
  = [ EListRepoWorkflows (Some "octo") (Some "demo");
      ERequest "POST /repos/octo/demo/actions/workflows/12/dispatches" "refs/heads/main"
        (JObject []) ] /\
  outputs (snd (run disabled_world 30 initial)) = [] /\
  warnings (snd (run disabled_world 30 initial))
  = ["Workflow is disabled, no action was taken"] /\
  failures (snd (run disabled_world 30 initial)) = [].
Proof.
  destruct (refused_dispatch_awaits_no_run disabled_world 30 (JObject []) tt
              sample_workflows (Workflow.mk 12 "deploy.yml" "tools/deploy")
              "Cannot trigger a 'workflow_dispatch' on a disabled workflow")
    as [Hcalls [Houtputs [Hdisabled _]]].
  - reflexivity.
  - reflexivity.
  - reflexivity.
  - vm_compute. reflexivity.
  - reflexivity.
  - split; [exact Hcalls|]. split; [exact Houtputs|]. apply Hdisabled.
    exists "Cannot trigger a 'workflow_dispatch' on ". reflexivity.
Defined.

(** ** The verdict of an invocation *)

(** X10. The promise of [run] is never rejected: whatever is thrown inside is
    caught.  The trace starts with the version banner.  The handler gives at
    most one verdict: exactly one, a warning or a failure, when the guarded
    region has thrown, and none otherwise. *)
Theorem run_never_throws_and_gives_one_verdict (w : World) (fuel : nat) :
  (forall message, fst (run w fuel initial) <> Thrown message) /\
  (exists rest, trace (snd (run w fuel initial)) = EInfo (banner w) :: rest) /\
  match fst (guarded w fuel (entered w)) with
  | Thrown _ =>
      (length (failures (snd (run w fuel initial)))
       + length (warnings (snd (run w fuel initial))) = 1)%nat
  | _ =>
      failures (snd (run w fuel initial)) = [] /\
      warnings (snd (run w fuel initial)) = []
  end.
Proof.
  destruct (run_trace w fuel) as [dispatching [waiting [verdict [_ [Htrace _]]]]].
  split; [|split; [eexists; exact Htrace|]]; rewrite run_eq;
    destruct (guarded w fuel (entered w)) as [[[]|thrown|] s1] eqn:Hguarded;
    cbn [fst snd]; try discriminate;
    destruct (guarded_gives_no_verdict _ _ _ _ Hguarded) as [Hf Hw];
    try (split; assumption).
  rewrite failures_record, warnings_record, Hf, Hw. unfold handler_event.
  destruct (Js.endsWith thrown _); reflexivity.
Qed.

(** ** Input resolution *)

Lemma append_empty_right (a : string) : a ++ "" = a.
Proof. induction a as [|c a IH]; cbn; [reflexivity | now rewrite IH]. Qed.

Lemma split_at_separator (a b : string) (sep : ascii) :
  ~ In sep (list_ascii_of_string a) ->
  Js.split (a ++ String sep b) sep = a :: Js.split b sep.
Proof.
  induction a as [|c a IH]; intros H; cbn.
  - now rewrite Ascii.eqb_refl.
  - destruct (Ascii.eqb_spec c sep) as [->|Hne].
    + elim H. now left.
    + rewrite IH; [reflexivity|]. intros Hin. apply H. now right.
Qed.

(** X11. A [repo] input [owner/repo], where neither part holds a [/], gives
    that owner and that repo; what follows a second [/] is ignored.  Without
    a [repo] input the owner and the repo are those of the context. *)
Theorem repo_input_is_split_at_slashes (w : World) :
  (forall owner repo tail,
     ~ In "/"%char (list_ascii_of_string owner) ->
     ~ In "/"%char (list_ascii_of_string repo) ->
     tail = "" \/ (exists ignored, tail = "/" ++ ignored) ->
     getInput w "repo" = owner ++ "/" ++ repo ++ tail ->
     resolve_owner_repo w = (Some owner, Some repo)) /\
  (getInput w "repo" = "" ->
   resolve_owner_repo w = (Some (context_owner w), Some (context_repo w))).
Proof.
  split.
  - intros owner repo tail Howner Hrepo Htail Hinput. unfold resolve_owner_repo.
    assert (Htruthy : Js.truthy (getInput w "repo") = true).
    { rewrite Hinput. now destruct owner. }
    rewrite Htruthy, Hinput.
    change (owner ++ "/" ++ repo ++ tail) with (owner ++ String "/" (repo ++ tail)).
    rewrite (split_at_separator _ _ _ Howner).
    destruct Htail as [->|[ignored ->]].
    + rewrite append_empty_right, (split_without_separator _ _ Hrepo). reflexivity.
    + change (repo ++ "/" ++ ignored) with (repo ++ String "/" ignored).
      rewrite (split_at_separator _ _ _ Hrepo). reflexivity.
  - intros Hinput. unfold resolve_owner_repo. rewrite Hinput. reflexivity.
Qed.

Lemma repo_input_is_split_at_slashes_witness :
  resolve_owner_repo two_part_repo_world = (Some "acme", Some "tools") /\
  resolve_owner_repo usual_world = (Some "octo", Some "demo").
Proof.
  destruct (repo_input_is_split_at_slashes two_part_repo_world) as [Hsplit _].
  destruct (repo_input_is_split_at_slashes usual_world) as [_ Hdefault].
  split.
  - apply (Hsplit "acme" "tools" "/extra").
    + vm_compute. intros [H|[H|[H|[H|[]]]]]; discriminate.
    + vm_compute. intros [H|[H|[H|[H|[H|[]]]]]]; discriminate.
    + right. exists "extra". reflexivity.
    + reflexivity.
  - apply Hdefault. reflexivity.
Defined.

(** ** The boundary of the recency window *)

(** X13. An attempt whose listing is headed by a run whose creation time does
    not parse, or is not later than sixty seconds before the time read (the
    very boundary included), does not accept it: the attempt reads the clock,
    sleeps two seconds and counts as one more attempt. *)
Theorem attempt_rejects_run_at_the_boundary
  (w : World) (owner repo : option string) (workflow_id : Z) (ref : string)
  (x : option Run.t * Z) (s : State) (latestRun : Run.t) (rest : list Run.t) :
  listWorkflowRuns w (listRuns_calls s) owner repo workflow_id (branch_of ref) 1
  = Returns (latestRun :: rest) ->
  (Date_parse w (Run.created_at latestRun) = None \/
   exists created,
     Date_parse w (Run.created_at latestRun) = Some created /\
     created <= Date_now w (now_calls s) - 60000) ->
  correlator_body w owner repo workflow_id ref x s =
  (Normal (fst x, snd x + 1),
   record (ESleep 2000)
     (count_now
        (count_listRuns
           (record (EListWorkflowRuns owner repo workflow_id (branch_of ref) 1) s)))).
Proof.
  intros Hlist Hold. rewrite correlator_body_eq, Hlist. cbv zeta.
  replace (created_recently w latestRun (Date_now w (now_calls s))) with false;
    [reflexivity|].
  symmetry. unfold created_recently, Js.Date_gt.
  destruct Hold as [->|[created [-> Hle]]]; [reflexivity|].
  unfold Js.new_Date. destruct (Z.abs _ <=? _); [|reflexivity].
  apply Z.ltb_ge. exact Hle.
Qed.

Lemma attempt_rejects_run_at_the_boundary_witness :
  correlator_body boundary_world (Some "octo") (Some "demo") 12 "refs/heads/main"
    (None, 0) initial =
  (Normal (None, 1),
   record (ESleep 2000)
     (count_now
        (count_listRuns
           (record (EListWorkflowRuns (Some "octo") (Some "demo") 12
                      (branch_of "refs/heads/main") 1) initial)))).
Proof.
  apply (attempt_rejects_run_at_the_boundary boundary_world (Some "octo") (Some "demo") 12
           "refs/heads/main" (None, 0) initial boundary_run []).
  - reflexivity.
  - right. exists 1699999945000. split; [reflexivity|]. vm_compute. discriminate.
Defined.

(** ** The dispatch request *)

Lemma filter_none {A : Type} (f : A -> bool) (l : list A) :
  Forall (fun a => f a = false) l -> filter f l = [].
Proof.
  induction 1 as [|a l Ha _ IH]; cbn; [reflexivity|]. now rewrite Ha.
Qed.

Lemma no_request_among (P : Event -> Prop) (l : list Event) :
  (forall e, P e -> is_dispatch_request e = false) -> Forall P l ->
  filter is_dispatch_request l = [] /\
  forall route ref payload, ~ In (ERequest route ref payload) l.
Proof.
  intros HP Hall. split.
  - apply filter_none. eapply Forall_impl; [|exact Hall]. exact HP.
  - intros route ref payload Hin. rewrite Forall_forall in Hall.
    specialize (HP _ (Hall _ Hin)). discriminate.
Qed.

Lemma waiting_event_is_no_request (e : Event) :
  is_waiting_event e = true -> is_dispatch_request e = false.
Proof. destruct e; cbn; congruence. Qed.

Lemma verdict_is_no_request (e : Event) :
  is_verdict e = true -> is_dispatch_request e = false.
Proof. destruct e; cbn; congruence. Qed.

(** X12. An invocation sends at most one dispatch request.  When it sends
    one, the request is on the resolved reference, and its route names the
    resolved owner and repo and the id of the first listed workflow that
    matches the identifier. *)
Theorem dispatches_at_most_once (w : World) (fuel : nat) :
  (length (filter is_dispatch_request (trace (snd (run w fuel initial)))) <= 1)%nat /\
  forall route ref payload,
    In (ERequest route ref payload) (trace (snd (run w fuel initial))) ->
    ref = resolve_ref w /\
    exists workflows foundWorkflow,
      listRepoWorkflows w (fst (resolve_owner_repo w)) (snd (resolve_owner_repo w))
      = Returns workflows /\
      find (matches (getInput w "workflow")) workflows = Some foundWorkflow /\
      route = dispatch_route (fst (resolve_owner_repo w)) (snd (resolve_owner_repo w))
                (Workflow.id foundWorkflow).
Proof.
  destruct (run_trace w fuel) as [dispatching [waiting [verdict [Hd [Hrun [Hw Hv]]]]]].
  assert (Hrest : filter is_dispatch_request (waiting ++ verdict) = [] /\
                  forall route ref payload,
                    ~ In (ERequest route ref payload) (waiting ++ verdict)).
  { apply (no_request_among (fun e => is_dispatch_request e = false));
      [auto | apply Forall_app; split;
              (eapply Forall_impl; [|eassumption]);
              [apply waiting_event_is_no_request | apply verdict_is_no_request]]. }
  destruct Hrest as [Hnone Hnot].
  rewrite Hrun. clear Hrun.
  rewrite dispatch_phase_eq in Hd. cbv zeta in Hd. rewrite decode_inputs_eq in Hd.
  assert (Hquiet : forall quiet,
            dispatching = quiet -> Forall (fun e => is_dispatch_request e = false) quiet ->
            (length (filter is_dispatch_request
                       (EInfo (banner w) :: dispatching ++ waiting ++ verdict)) <= 1)%nat /\
            forall route ref payload,
              In (ERequest route ref payload)
                (EInfo (banner w) :: dispatching ++ waiting ++ verdict) -> False).
  { intros quiet -> Hq. split.
    - cbn [filter is_dispatch_request]. rewrite filter_app, Hnone, app_nil_r.
      rewrite (filter_none _ _ Hq). cbn. lia.
    - intros route ref payload [Hin|Hin]; [discriminate|].
      apply in_app_or in Hin as [Hin|Hin]; [|exact (Hnot _ _ _ Hin)].
      rewrite Forall_forall in Hq. specialize (Hq _ Hin). discriminate. }
  assert (Hunsent : forall quiet,
            dispatching = quiet -> Forall (fun e => is_dispatch_request e = false) quiet ->
            (length (filter is_dispatch_request
                       (EInfo (banner w) :: dispatching ++ waiting ++ verdict)) <= 1)%nat /\
            forall route ref payload,
              In (ERequest route ref payload)
                (EInfo (banner w) :: dispatching ++ waiting ++ verdict) ->
              ref = resolve_ref w /\
              exists workflows foundWorkflow,
                listRepoWorkflows w (fst (resolve_owner_repo w))
                  (snd (resolve_owner_repo w)) = Returns workflows /\
                find (matches (getInput w "workflow")) workflows = Some foundWorkflow /\
                route = dispatch_route (fst (resolve_owner_repo w))
                          (snd (resolve_owner_repo w)) (Workflow.id foundWorkflow)).
  { intros quiet Heq Hq. destruct (Hquiet quiet Heq Hq) as [Hlen Hno].
    split; [exact Hlen|]. intros route ref payload Hin. now elim (Hno _ _ _ Hin). }
  clear Hquiet.
  destruct (Js.truthy (getInput w "inputs")); [destruct (JSON_parse w _) as [inputs|]|];
    try (cbn [snd trace entered record initial app] in Hd; injection Hd as <-;
         apply (Hunsent []); [reflexivity | constructor]);
    (destruct (getOctokit w _);
       [| cbn [snd trace entered record initial app] in Hd; injection Hd as <-;
          apply (Hunsent []); [reflexivity | constructor]];
     destruct (listRepoWorkflows w _ _) as [workflows|] eqn:Hlist;
       [| cbn [snd trace entered record initial app] in Hd; injection Hd as <-;
          eapply Hunsent; [reflexivity | repeat constructor]];
     destruct (find _ workflows) as [foundWorkflow|] eqn:Hfind;
       [| cbn [snd trace entered record initial app] in Hd; injection Hd as <-;
          eapply Hunsent; [reflexivity | repeat constructor]];
     clear Hunsent;
     destruct (request_dispatch w _ _ _);
       cbn [snd trace entered record initial app] in Hd; injection Hd as <-;
       (split;
        [ cbn [app filter is_dispatch_request]; rewrite Hnone; cbn; lia
        | intros route ref payload Hin; cbn [app In] in Hin;
          repeat (destruct Hin as [Hin|Hin]; [try discriminate|]);
            [ injection Hin as <- <- _; split; [reflexivity|];
              exists workflows, foundWorkflow; repeat split; assumption
            | now elim (Hnot _ _ _ Hin) ] ])).
Qed.

(** ** Where an invocation can wait without bound *)

Lemma correlator_loop_fetches_nothing (w : World) (owner repo : option string)
  (workflow_id : Z) (ref : string) :
  forall (fuel : nat) (x : option Run.t * Z) (s : State),
    getRun_calls
      (snd (while fuel correlator_cond (correlator_body w owner repo workflow_id ref) x s))
    = getRun_calls s.
Proof.
  induction fuel as [|fuel IH]; intros x s; rewrite while_unfold;
    destruct (correlator_cond x); try reflexivity.
  rewrite bind_eq, correlator_body_eq. cbv zeta.
  destruct (listWorkflowRuns w _ _ _ _ _ _) as [[|latestRun rest]|message];
    [rewrite IH; reflexivity | | reflexivity].
  destruct (created_recently w latestRun _); rewrite IH; reflexivity.
Qed.

Lemma correlate_fetches_nothing (w : World) (fuel : nat) (owner repo : option string)
  (workflow_id : Z) (ref : string) (s : State) :
  getRun_calls (snd (correlate w fuel owner repo workflow_id ref s)) = getRun_calls s.
Proof.
  rewrite correlate_eq.
  pose proof (correlator_loop_fetches_nothing w owner repo workflow_id ref fuel (None, 0) s)
    as H.
  destruct (while _ _ _ _ _) as [[[[?|] ?]| |] ?]; exact H.
Qed.

(** A poll that has not come to an end has used every iteration it was
    allowed for one more fetch. *)
Lemma poll_pending_fetches (w : World) (owner repo : option string) :
  forall (fuel : nat) (workflowRun : Run.t) (s s' : State),
    poll w fuel owner repo workflowRun s = (Pending, s') ->
    getRun_calls s' = (getRun_calls s + fuel)%nat.
Proof.
  unfold poll.
  induction fuel as [|fuel IH]; intros workflowRun s s'; rewrite while_unfold;
    destruct (not_completed workflowRun); try discriminate.
  - intros H; injection H as <-. cbn. lia.
  - rewrite bind_eq, poller_body_eq. cbv zeta.
    destruct (getWorkflowRun w _ _ _ _) as [data|message]; [|discriminate].
    intros H. apply IH in H. rewrite H.
    destruct (not_completed data); cbn; lia.
Qed.

(** X14. The correlator is bounded, the poller is not: an invocation allowed
    thirty iterations or more that has not come to an end is in the poller.
    It has dispatched and set [workflowId], correlated a run, logged that it
    waits for its completion, used every iteration for one more fetch, and
    given no verdict. *)
Theorem only_the_poller_waits_without_bound (w : World) (fuel : nat) :
  (30 <= fuel)%nat ->
  fst (run w fuel initial) = Pending ->
  In (EConsoleLog "⏳ Waiting for workflow run to complete...")
    (trace (snd (run w fuel initial))) /\
  (exists foundWorkflow,
     outputs (snd (run w fuel initial))
     = [("workflowId", VNumber (Workflow.id foundWorkflow))]) /\
  getRun_calls (snd (run w fuel initial)) = fuel /\
  failures (snd (run w fuel initial)) = [] /\
  warnings (snd (run w fuel initial)) = [].
Proof.
  intros Hfuel. rewrite run_eq.
  destruct (guarded w fuel (entered w)) as [[[]|message|] s3] eqn:Hguarded;
    cbn [fst snd]; try discriminate.
  intros _. pose proof (guarded_gives_no_verdict _ _ _ _ Hguarded) as [Hf Hw].
  rewrite guarded_eq in Hguarded.
  destruct (dispatch_phase w (entered w)) as [[foundWorkflow|message|] s1] eqn:Hdispatch;
    try discriminate; [|now apply dispatch_phase_abnormal in Hdispatch].
  pose proof (after_dispatch_outputs _ _ _ _ _ _ Hguarded) as Hout. cbv iota in Hout.
  rewrite (dispatch_phase_outputs _ _ _ Hdispatch) in Hout.
  destruct (dispatch_phase_normal _ _ _ _ Hdispatch)
    as [? [? [? [_ [_ [_ [_ [_ [_ [Hg1 _]]]]]]]]]].
  rewrite after_dispatch_eq in Hguarded.
  pose proof (correlate_terminates w (fst (resolve_owner_repo w))
                (snd (resolve_owner_repo w)) (Workflow.id foundWorkflow) (resolve_ref w)
                fuel (record (EConsoleLog "⌛ Waiting for workflow run to start...") s1)
                Hfuel) as Hends.
  pose proof (correlate_fetches_nothing w fuel (fst (resolve_owner_repo w))
                (snd (resolve_owner_repo w)) (Workflow.id foundWorkflow) (resolve_ref w)
                (record (EConsoleLog "⌛ Waiting for workflow run to start...") s1))
    as Hg2.
  destruct (correlate w fuel _ _ _ _ _) as [[workflowRun|message|] s2];
    try discriminate; [|now elim Hends].
  cbn [snd getRun_calls record] in Hg2.
  rewrite completion_phase_eq in Hguarded.
  destruct (appends_poll w (fst (resolve_owner_repo w)) (snd (resolve_owner_repo w))
              (fun _ => True) fuel workflowRun (fun _ => I) I
              (record (EConsoleLog "⏳ Waiting for workflow run to complete...") s2))
    as [added [Htrace _]].
  destruct (poll w fuel _ _ workflowRun _) as [[final|message|] s3'] eqn:Hpoll;
    try discriminate.
  injection Hguarded as ->. cbn [snd] in Htrace.
  apply poll_pending_fetches in Hpoll. cbn [getRun_calls record] in Hpoll.
  repeat split; try assumption.
  - rewrite Htrace. cbn [trace record]. apply in_or_app. left.
    apply in_or_app. right. now left.
  - now exists foundWorkflow.
  - rewrite Hpoll, Hg2, Hg1. reflexivity.
Qed.

Lemma only_the_poller_waits_without_bound_witness :
  In (EConsoleLog "⏳ Waiting for workflow run to complete...")
    (trace (snd (run endless_world 30 initial))) /\
  (exists foundWorkflow,
     outputs (snd (run endless_world 30 initial))
     = [("workflowId", VNumber (Workflow.id foundWorkflow))]) /\
  getRun_calls (snd (run endless_world 30 initial)) = 30%nat /\
  failures (snd (run endless_world 30 initial)) = [] /\
  warnings (snd (run endless_world 30 initial)) = [].
Proof.
  apply (only_the_poller_waits_without_bound endless_world 30).
  - lia.
  - vm_compute. reflexivity.
Defined.

(** ** An invocation that goes through *)

Lemma poll_lists_nothing (w : World) (owner repo : option string) :
  forall (fuel : nat) (workflowRun : Run.t) (s : State),
    listRuns_calls (snd (poll w fuel owner repo workflowRun s)) = listRuns_calls s.
Proof.
  unfold poll.
  induction fuel as [|fuel IH]; intros workflowRun s; rewrite while_unfold;
    destruct (not_completed workflowRun); try reflexivity.
  rewrite bind_eq, poller_body_eq. cbv zeta.
  destruct (getWorkflowRun w _ _ _ _) as [data|message]; [|reflexivity].
  rewrite IH. now destruct (not_completed data).
Qed.

Lemma slept_in_dispatch_events (w : World) (workflows : list Workflow.t)
  (foundWorkflow : Workflow.t) (inputs : Json) (status : Z) :
  slept_in (dispatch_events w workflows foundWorkflow inputs status) = 0.
Proof. reflexivity. Qed.

(** X15. Let the dispatch phase go through, let the run show up at the
    [(n+1)]-th listing, not completed, let the first [m] fetches find it not
    completed and the next find it completed.  Then the invocation returns
    normally, without failure or warning, with the four outputs in order:
    [workflowId], then the id, the status and the conclusion of the last
    snapshot.  It has made [n + 1] listings and [m + 1] fetches, and slept
    two seconds for each of the [n] and five for each of the [m]. *)
Theorem invocation_reports_the_completed_run
  (w : World) (fuel : nat) (foundWorkflow : Workflow.t) (s1 : State) (n m : nat)
  (latestRun final : Run.t) (rest : list Run.t) :
  dispatch_phase w (entered w) = (Normal foundWorkflow, s1) ->
  (n < 30)%nat -> (n < fuel)%nat -> (m < fuel)%nat ->
  no_eligible_run w (fst (resolve_owner_repo w)) (snd (resolve_owner_repo w))
    (Workflow.id foundWorkflow) (resolve_ref w) n 0 0 = true ->
  listWorkflowRuns w n (fst (resolve_owner_repo w)) (snd (resolve_owner_repo w))
    (Workflow.id foundWorkflow) (branch_of (resolve_ref w)) 1
  = Returns (latestRun :: rest) ->
  created_recently w latestRun
    (Date_now w (clock_readings w (fst (resolve_owner_repo w))
                   (snd (resolve_owner_repo w)) (Workflow.id foundWorkflow)
                   (resolve_ref w) n 0)) = true ->
  Run.status latestRun <> "completed" ->
  (forall k, (k < m)%nat ->
     exists snapshot,
       getWorkflowRun w k (fst (resolve_owner_repo w)) (snd (resolve_owner_repo w))
         (Run.id latestRun) = Returns snapshot /\
       Run.status snapshot <> "completed" /\
       Run.id snapshot = Run.id latestRun) ->
  getWorkflowRun w m (fst (resolve_owner_repo w)) (snd (resolve_owner_repo w))
    (Run.id latestRun) = Returns final ->
  Run.status final = "completed" ->
  exists s',
    run w fuel initial = (Normal tt, s') /\
    outputs s' =
      ("workflowId", VNumber (Workflow.id foundWorkflow))
        :: run_outputs (Run.id final) "completed" (conclusion_value final) /\
    failures s' = [] /\
    warnings s' = [] /\
    listRuns_calls s' = S n /\
    getRun_calls s' = S m /\
    slept_in (trace s') = 2000 * Z.of_nat n + 5000 * Z.of_nat m.
Proof.
  intros Hdispatch Hn Hfueln Hfuelm Hstale Hlist Hrecent Hrun Hpending Hfinal Hdone.
  destruct (dispatch_phase_normal _ _ _ _ Hdispatch)
    as [workflows [inputs [status [_ [_ [_ [_ [Htrace1 [Hl1 [Hg1 Hn1]]]]]]]]]].
  cbn [listRuns_calls getRun_calls now_calls entered record initial] in Hl1, Hg1, Hn1.
  destruct (correlate_accepts_after_stale_attempts w fuel (fst (resolve_owner_repo w))
              (snd (resolve_owner_repo w)) (Workflow.id foundWorkflow) (resolve_ref w)
              (record (EConsoleLog "⌛ Waiting for workflow run to start...") s1)
              n latestRun rest Hn Hfueln)
    as [s2 [Hcorrelate [Htrace2 [Hl2 Hg2]]]];
    try (cbn [listRuns_calls now_calls record]; rewrite ?Hl1, ?Hn1; assumption).
  cbn [listRuns_calls getRun_calls record] in Hl2, Hg2.
  apply not_completed_true in Hrun. pose proof (not_completed_false _ Hdone) as Hdone'.
  destruct (poll_stops w (fst (resolve_owner_repo w)) (snd (resolve_owner_repo w)) m
              latestRun final
              (record (EConsoleLog "⏳ Waiting for workflow run to complete...") s2)
              fuel Hrun) as [s3 [Hpoll [Htrace3 Hg3]]];
    try assumption.
  { apply (pending_snapshots w _ _ latestRun m _ initial);
      [cbn [getRun_calls record]; rewrite Hg2, Hg1; reflexivity | exact Hpending]. }
  { cbn [getRun_calls record]. rewrite Hg2, Hg1. exact Hfinal. }
  assert (Hguarded : guarded w fuel (entered w)
                     = (Normal tt,
                        record (EConsoleLog ("✨ Workflow run completed with conclusion: "
                                               ++ Js.interpolate_nullable
                                                    (Run.conclusion final)))
                          (record (ESetOutput "workflow_run_conclusion"
                                     (conclusion_value final))
                             (record (ESetOutput "workflow_run_status"
                                        (VString (Run.status final)))
                                (record (ESetOutput "workflow_run_id"
                                           (VNumber (Run.id final))) s3))))).
  { now rewrite guarded_eq, Hdispatch, after_dispatch_eq, Hcorrelate,
      completion_phase_eq, Hpoll. }
  destruct (guarded_gives_no_verdict _ _ _ _ Hguarded) as [Hf Hw].
  rewrite run_eq, Hguarded. eexists; split; [reflexivity|].
  split; [|split; [exact Hf | split; [exact Hw|]]].
  - rewrite !outputs_record, Hdone. unfold outputs, outputs_in.
    rewrite Htrace3. cbn [trace record]. rewrite Htrace2. cbn [trace record].
    rewrite !flat_map_app, outputs_of_pending.
    fold (outputs_in (concat (repeat (stale_attempt (fst (resolve_owner_repo w))
      (snd (resolve_owner_repo w)) (Workflow.id foundWorkflow) (resolve_ref w)) n))).
    rewrite outputs_of_stale_attempts.
    fold (outputs_in (trace s1)). fold (outputs s1).
    rewrite (dispatch_phase_outputs _ _ _ Hdispatch). reflexivity.
  - cbn [listRuns_calls getRun_calls trace record].
    pose proof (poll_lists_nothing w (fst (resolve_owner_repo w))
                  (snd (resolve_owner_repo w)) fuel latestRun
                  (record (EConsoleLog "⏳ Waiting for workflow run to complete...") s2))
      as Hl3.
    rewrite Hpoll in Hl3. cbn [snd listRuns_calls record] in Hl3.
    split; [rewrite Hl3, Hl2, Hl1; reflexivity|].
    split; [rewrite Hg3; cbn [getRun_calls record]; rewrite Hg2, Hg1; reflexivity|].
    rewrite Htrace3. cbn [trace record]. rewrite Htrace2. cbn [trace record].
    rewrite Htrace1. rewrite !slept_in_app, slept_in_dispatch_events,
      slept_in_stale_attempts, slept_in_pending_fetches.
    cbn [slept_in fold_right sleep_of trace entered record initial app]. lia.
Qed.

Lemma invocation_reports_the_completed_run_witness :
  exists s',
    run usual_world 30 initial = (Normal tt, s') /\
    outputs s' =
      ("workflowId", VNumber 12) :: run_outputs 501 "completed" (VString "success") /\
    failures s' = [] /\
    warnings s' = [] /\
    listRuns_calls s' = 3%nat /\
    getRun_calls s' = 3%nat /\
    slept_in (trace s') = 2000 * Z.of_nat 2 + 5000 * Z.of_nat 2.
Proof.
  apply (invocation_reports_the_completed_run usual_world 30
           (Workflow.mk 12 "deploy.yml" "tools/deploy")
           (snd (dispatch_phase usual_world (entered usual_world))) 2 2
           (fresh_run "queued" None)
           (Run.mk 501 "completed" (Some "success") "2023-11-14T22:13:20Z") []).
  - vm_compute. reflexivity.
  - lia.
  - lia.
  - lia.
  - vm_compute. reflexivity.
  - reflexivity.
  - vm_compute. reflexivity.
  - simpl. discriminate.
  - intros k Hk. exists (Run.mk 501 "in_progress" None "2023-11-14T22:13:20Z").
    destruct k as [|[|k]]; [| | lia]; simpl; (repeat split; [discriminate]).
  - reflexivity.
  - reflexivity.
Defined.

(** ** The branch of the run listings *)

(** The first occurrence of the pattern is the one that is removed. *)
Lemma replace_first_occurrence (before after pattern : string) :
  (forall k, (k < String.length before)%nat ->
     String.prefix pattern (Js.drop k (before ++ pattern ++ after)) = false) ->
  Js.replace (before ++ pattern ++ after) pattern "" = before ++ after.
Proof.
  induction before as [|c before IH]; intros H.
  - exact (replace_leading pattern after).
  - rewrite replace_unfold.
    pose proof (H 0%nat) as H0. cbn [Js.drop String.length] in H0.
    rewrite H0 by lia. cbn [append]. f_equal. apply IH.
    intros k Hk. apply (H (S k)). cbn [String.length]. lia.
Qed.

(** X16. Let [refs/heads/] occur in the reference, for the first time after
    [before].  Whatever the correlator adds to the trace, its run listings
    all ask for one run per page of the given workflow, on the reference with
    that first occurrence removed: the branch name, when the reference starts
    with [refs/heads/]. *)
Theorem run_listings_ask_for_the_reference_without_refs_heads
  (w : World) (fuel : nat) (owner repo : option string) (workflow_id : Z)
  (before after : string) (s : State) :
  (forall k, (k < String.length before)%nat ->
     String.prefix "refs/heads/" (Js.drop k (before ++ "refs/heads/" ++ after)) = false) ->
  exists added,
    trace (snd (correlate w fuel owner repo workflow_id (before ++ "refs/heads/" ++ after) s))
    = (trace s ++ added)%list /\
    forall e, In e added -> is_run_listing e = true ->
      e = EListWorkflowRuns owner repo workflow_id (before ++ after) 1.
Proof.
  intros Hfirst.
  destruct (correlator_listing_arguments w fuel owner repo workflow_id
              (before ++ "refs/heads/" ++ after) s) as [added [Htrace Hall]].
  exists added. split; [exact Htrace|].
  intros e Hin Hlisting. rewrite Forall_forall in Hall. specialize (Hall _ Hin).
  destruct e; try discriminate. unfold lists_latest_run in Hall.
  destruct Hall as [-> [-> [-> [-> ->]]]].
  unfold branch_of. now rewrite (replace_first_occurrence _ _ _ Hfirst).
Qed.

Lemma run_listings_ask_for_the_reference_without_refs_heads_witness :
  exists added,
    trace (snd (correlate inner_ref_world 30 (Some "octo") (Some "demo") 12
                  ("release/" ++ "refs/heads/" ++ "v1") initial))
    = (trace initial ++ added)%list /\
    forall e, In e added -> is_run_listing e = true ->
      e = EListWorkflowRuns (Some "octo") (Some "demo") 12 ("release/" ++ "v1") 1.
Proof.
  apply (run_listings_ask_for_the_reference_without_refs_heads inner_ref_world 30
           (Some "octo") (Some "demo") 12 "release/" "v1" initial).
  intros k Hk. do 8 (destruct k as [|k]; [reflexivity|]). cbn in Hk. lia.
Defined.

(** ** The inputs when none are given *)

(** X17. When the [inputs] input is not set (the empty string), nothing is
    parsed: the payload of every dispatch request of the invocation is the
    empty object, and so is that of the request made once the client is
    created, the workflows are listed and one of them is found. *)
Theorem unset_inputs_dispatch_the_empty_object (w : World) (fuel : nat) :
  getInput w "inputs" = "" ->
  (forall s, decode_inputs w (getInput w "inputs") s = (Normal (JObject []), s)) /\
  (forall route ref payload,
     In (ERequest route ref payload) (trace (snd (run w fuel initial))) ->
     payload = JObject []) /\
  (forall workflows foundWorkflow,
     (exists client, getOctokit w (getInput w "token") = Returns client) ->
     listRepoWorkflows w (fst (resolve_owner_repo w)) (snd (resolve_owner_repo w))
     = Returns workflows ->
     find (matches (getInput w "workflow")) workflows = Some foundWorkflow ->
     In (ERequest
           (dispatch_route (fst (resolve_owner_repo w)) (snd (resolve_owner_repo w))
              (Workflow.id foundWorkflow))
           (resolve_ref w) (JObject []))
       (trace (snd (run w fuel initial)))).
Proof.
  intros Hunset.
  assert (Hdecode : forall s,
            decode_inputs w (getInput w "inputs") s = (Normal (JObject []), s)).
  { intros s. now rewrite decode_inputs_eq, Hunset. }
  split; [exact Hdecode|].
  apply requests_carry_decoded_inputs. apply Hdecode.
Qed.

Lemma unset_inputs_dispatch_the_empty_object_witness :
  (forall route ref payload,
     In (ERequest route ref payload) (trace (snd (run usual_world 30 initial))) ->
     payload = JObject []) /\
  In (ERequest "POST /repos/octo/demo/actions/workflows/12/dispatches" "refs/heads/main"
        (JObject []))
    (trace (snd (run usual_world 30 initial))).
Proof.
  destruct (unset_inputs_dispatch_the_empty_object usual_world 30)
    as [_ [Hall Hrequest]].
  - reflexivity.
  - split; [exact Hall|].
    apply (Hrequest sample_workflows (Workflow.mk 12 "deploy.yml" "tools/deploy")).
    + exists tt. reflexivity.
    + reflexivity.
    + vm_compute. reflexivity.
Defined.
